(** * EntityDB: the Google Cloud Storage backend of an entity-component store

    A shallow embedding of [src/entitydb/entitydb.py] and
    [src/entitydb/entitydb_gcs.py].  The bucket is a finite map from blob
    names to blobs, Python exceptions are the left summand of a result
    type, the [random] module is an explicit stream of draws, and objects
    that the Python code mutates in place (the entity, its components) are
    returned in their updated state. *)

From Stdlib Require Import Ascii String.
From stdpp Require Import strings gmap list.

Open Scope string_scope.
Open Scope list_scope.

(** ** Python values the code relies on *)

Module Py.

(** The exceptions that the modelled code can raise. *)
Inductive exn : Type :=
| TypeError
| ValueError
| KeyError (key : string)
| AttributeError (attr : string)
| NotImplementedError
| Exception (msg : string).

#[global] Instance exn_eq_dec : EqDecision exn.
Proof. solve_decision. Defined.

Definition result (A : Type) : Type := exn + A.

Definition ok {A} (a : A) : result A := inr a.
Definition raise {A} (e : exn) : result A := inl e.

#[global] Instance result_ret : MRet result := λ A a, inr a.
#[global] Instance result_fmap : FMap result := λ A B f r,
  match r with
  | inl e => inl e
  | inr a => inr (f a)
  end.
#[global] Instance result_bind : MBind result := λ A B k r,
  match r with
  | inl e => inl e
  | inr a => k a
  end.

(** A [for] loop that threads an accumulator and stops at the first
    exception. *)
Fixpoint for_each {A S} (items : list A) (acc : S)
    (body : S → A → result S) : result S :=
  match items with
  | [] => ok acc
  | x :: rest => acc' ← body acc x; for_each rest acc' body
  end.

(** [s.split(sep)] for a one-character separator: the pieces between the
    occurrences of [sep]; never the empty list. *)
Fixpoint split (sep : ascii) (s : string) : list string :=
  match s with
  | EmptyString => [EmptyString]
  | String c s' =>
      if decide (c = sep) then EmptyString :: split sep s'
      else match split sep s' with
           | [] => [String c EmptyString]
           | w :: ws => String c w :: ws
           end
  end.

(** [l[-1]] on the result of a split (which is never empty). *)
Definition last_item (l : list string) : string := List.last l EmptyString.

(** [c in s] for a character. *)
Fixpoint occurs (c : ascii) (s : string) : bool :=
  match s with
  | EmptyString => false
  | String c' s' => bool_decide (c' = c) || occurs c s'
  end.

(** [s[len(p):]] when [s.startswith(p)]. *)
Fixpoint strip_prefix (p s : string) : option string :=
  match p, s with
  | EmptyString, _ => Some s
  | String a p', String b s' =>
      if decide (a = b) then strip_prefix p' s' else None
  | String _ _, EmptyString => None
  end.

(** [string.digits] and [string.ascii_letters], as sequences of characters. *)
Definition digits : list ascii := list_ascii_of_string "0123456789".
Definition ascii_letters : list ascii :=
  list_ascii_of_string "abcdefghijklmnopqrstuvwxyzABCDEFGHIJKLMNOPQRSTUVWXYZ".

(** The state of the [random] module: an unbounded supply of draws and
    the number of draws consumed so far. *)
Record rng : Type := Rng { draws : nat → nat; pos : nat }.

(** [random.choice(seq)]: an index below [len(seq)], then the element there. *)
Definition choice (seq : list ascii) (g : rng) : ascii * rng :=
  (nth (draws g (pos g) `mod` length seq) seq "000"%char,
   Rng (draws g) (S (pos g))).

End Py.

(** ** The store: bucket, registry and random state *)

(** A blob of the bucket: its payload and its content type. *)
Record Blob : Type := MkBlob { payload : string; content_type : string }.

#[global] Instance Blob_eq_dec : EqDecision Blob.
Proof. solve_decision. Defined.

(** A component class, as far as the code looks at it: [__name__] and the
    fields its constructor declares. *)
Record Class : Type := MkClass { __name__ : string; declared_fields : list string }.

#[global] Instance Class_eq_dec : EqDecision Class.
Proof. solve_decision. Defined.

Record World : Type := MkWorld {
  bucket : gmap string Blob;
  component_classes : gmap string Class;
  random : Py.rng
}.

(** Code that reads and writes the store and may raise. *)
Definition Store (A : Type) : Type := World → World * Py.result A.

#[global] Instance Store_ret : MRet Store := λ A a w, (w, inr a).
#[global] Instance Store_bind : MBind Store := λ A B k m w,
  match m w with
  | (w', inl e) => (w', inl e)
  | (w', inr a) => k a w'
  end.

Definition throw {A} (e : Py.exn) : Store A := λ w, (w, inl e).

(** Lift a computation that only reads the store. *)
Definition reading {A} (f : World → Py.result A) : Store A := λ w, (w, f w).

(** Draw from the [random] module. *)
Definition draw {A} (gen : Py.rng → A * Py.rng) : Store A := λ w,
  (MkWorld (bucket w) (component_classes w) (gen (random w)).2,
   inr (gen (random w)).1).

(** [self.bucket.blob(name).upload_from_string(...)] *)
Definition upload (name : string) (blob : Blob) : Store unit := λ w,
  (MkWorld (<[name := blob]> (bucket w)) (component_classes w) (random w), inr ()).

(** A [for] loop in [Store] that rebuilds the visited objects. *)
Fixpoint for_all {A B} (body : A → Store B) (items : list A) : Store (list B) :=
  match items with
  | [] => mret []
  | x :: rest => y ← body x; ys ← for_all body rest; mret (y :: ys)
  end.

(** [storage_client.list_blobs(bucket, prefix=..., delimiter=...)]: the
    names of the blobs that start with [prefix] and have no [delimiter]
    after it.  The service lists in lexicographic order; here the order is
    that of the map's enumeration. *)
Definition listed (prefix : string) (delimiter : ascii) (name : string) : bool :=
  match Py.strip_prefix prefix name with
  | Some rest => negb (Py.occurs delimiter rest)
  | None => false
  end.

Definition list_blobs (b : gmap string Blob) (prefix : string) (delimiter : ascii)
    : list string :=
  filter (λ name, listed prefix delimiter name = true) (map_to_list b).*1.

Section DataModel.

(** The values held by component fields. *)
Context {Value : Type}.

(** A component instance: its class, its [_uid] attribute (absent until
    the component is persisted) and its other attributes. *)
Record Component : Type := MkComponent {
  class_of : Class;
  _uid : option string;
  attributes : list (string * Value)
}.

(** Modelled from the spec: [entitydb.entity.Entity] is not among the
    sources.  An entity is a handle on an identifier ([uid], absent
    before the first save), a back-reference to the owning store ([db]),
    the loaded components and the component types known but not loaded. *)
Record Entity : Type := MkEntity {
  uid : option string;
  db : bool;
  _components : list Component;
  _unloaded_components : list Class
}.

#[global] Instance Component_eq_dec `{EqDecision Value} : EqDecision Component.
Proof. solve_decision. Defined.

#[global] Instance Entity_eq_dec `{EqDecision Value} : EqDecision Entity.
Proof. solve_decision. Defined.

Definition get_components (entity : Entity) : list Component :=
  _components entity.

(** Python truth value of [entity.uid]: [None] and [""] are false. *)
Definition uid_truthy (entity : Entity) : bool :=
  match uid entity with
  | None => false
  | Some s => negb (bool_decide (s = ""))
  end.

End DataModel.

Arguments Component : clear implicits.
Arguments Entity : clear implicits.

(** Modelled from the spec: [entitydb.system.SystemWrapper] is not among
    the sources.  The compiled query of a system: the required component
    types by parameter name, in parameter order, and the excluded types. *)
Record SystemWrapper : Type := MkSystem {
  include_components : list (string * Class);
  exclude_components : list Class
}.

(** ** [entitydb.py]: the base class *)

Module EntityDB.

Definition PRIMARY_KEY : string := "_uid".
Definition ENTITY_TABLE : string := "_entities".
Definition ENTITY_REFERENCE : string := "_entity".

Section Methods.
Context {Value Callable : Type}.

Definition add_entity (entity : Entity Value) : Store string :=
  throw Py.NotImplementedError.

Definition update_entity (entity : Entity Value) : Store bool :=
  throw Py.NotImplementedError.

Definition delete_entity (entity : Entity Value) : Store unit :=
  throw Py.NotImplementedError.

Definition run (system_func : Callable) : Store unit :=
  throw Py.NotImplementedError.

Definition count_matches (system_func : Callable) : Store nat :=
  throw Py.NotImplementedError.

Definition load_component (entity : Entity Value) (component_type : Class)
    : Store bool :=
  throw Py.NotImplementedError.
End Methods.

Section Hydration.
(** The raw payloads fetched from the field store, and the instances
    that constructors build. *)
Context {Raw Instance : Type}.

(** The call of [component_type] on unpacked keyword arguments. *)
Variable construct : Class → gmap string Raw → Py.result Instance.

(** The loop of [_create_component_from_data]: the keyword arguments
    handed to the constructor. *)
Definition component_values (component_data : gmap string Raw) : gmap string Raw :=
  map_fold
    (λ varname value values,
       if decide (varname ∈ [PRIMARY_KEY; ENTITY_REFERENCE]) then values
       else <[varname := value]> values)
    ∅ component_data.

Definition _create_component_from_data (component_type : Class)
    (component_data : gmap string Raw) : Py.result Instance :=
  construct component_type (component_values component_data).
End Hydration.

End EntityDB.

(** ** [entitydb_gcs.py]: the object-storage backend *)

Module EntityDB_GCS.

Definition BLOBNAME_DELIMITER : ascii := "/"%char.
Definition ENTITY_FOLDER : string := "ent".
Definition COMPONENT_FOLDER : string := "cmp".
Definition DATA_FOLDER : string := "dat".
Definition UID_LENGTH : nat := 16.

(** *** Identifiers *)

(** [_random_id]: [length] characters drawn from the letters and digits. *)
Fixpoint _random_id (length : nat) (g : Py.rng) : string * Py.rng :=
  match length with
  | 0 => (EmptyString, g)
  | S n =>
      let '(c, g1) := Py.choice (Py.ascii_letters ++ Py.digits)%list g in
      let '(s, g2) := _random_id n g1 in
      (String c s, g2)
  end.

(** [_random_eid]: a digit, then [UID_LENGTH - 1] letters or digits. *)
Definition _random_eid (g : Py.rng) : string * Py.rng :=
  let '(c, g1) := Py.choice Py.digits g in
  let '(s, g2) := _random_id (UID_LENGTH - 1) g1 in
  (String c s, g2).

(** [_random_cid]: a letter, then [UID_LENGTH - 1] letters or digits. *)
Definition _random_cid (g : Py.rng) : string * Py.rng :=
  let '(c, g1) := Py.choice Py.ascii_letters g in
  let '(s, g2) := _random_id (UID_LENGTH - 1) g1 in
  (String c s, g2).

(** *** Blob names *)

(** [f"{ENTITY_FOLDER}/{entity.uid}/{component_name}-{component._uid}"] *)
Definition forward_blob_name (eid component_name cid : string) : string :=
  ENTITY_FOLDER +:+ "/" +:+ eid +:+ "/" +:+ component_name +:+ "-" +:+ cid.

(** [f"{COMPONENT_FOLDER}/{component_name}/{entity.uid}-{component._uid}"] *)
Definition type_blob_name (component_name eid cid : string) : string :=
  COMPONENT_FOLDER +:+ "/" +:+ component_name +:+ "/" +:+ eid +:+ "-" +:+ cid.

(** [f"{DATA_FOLDER}/{cid}/{varname}"] *)
Definition data_blob_name (cid varname : string) : string :=
  DATA_FOLDER +:+ "/" +:+ cid +:+ "/" +:+ varname.

(** [f"{COMPONENT_FOLDER}/{component_name}/"], the prefix that [run] searches. *)
Definition type_prefix (component_name : string) : string :=
  COMPONENT_FOLDER +:+ "/" +:+ component_name +:+ "/".

(** [eid, cid = blob.name.split(BLOBNAME_DELIMITER)[-1].split("-")]: the
    unpacking raises [ValueError] unless the split has exactly two pieces. *)
Definition parse_blob_name (name : string) : Py.result (string * string) :=
  match Py.split "-" (Py.last_item (Py.split BLOBNAME_DELIMITER name)) with
  | [eid; cid] => Py.ok (eid, cid)
  | _ => Py.raise Py.ValueError
  end.

(** [_search_blobs] *)
Definition _search_blobs (b : gmap string Blob) (prefix : string) : list string :=
  list_blobs b prefix BLOBNAME_DELIMITER.

(** [_create_empty_blob]; [upload_from_string] defaults to ["text/plain"]. *)
Definition empty_blob : Blob := MkBlob "" "text/plain".
Definition _create_empty_blob (name : string) : Store unit :=
  upload name empty_blob.

(** *** Adding, updating and deleting entities *)

Section Lifecycle.
Context {Value : Type}.

(** [entitydb.serializers.serialize]: payload and MIME type of a value. *)
Variable serialize : Value → string * string.

(** [EntityDB.get_variables_of]: the field names and values of a
    component, in the order of the returned dict. *)
Variable get_variables_of : Component Value → list (string * Value).

(** Modelled from the spec: [_register_component_type] is not among the
    sources.  The registry maps a component type name to its type and is
    populated as components are first stored. *)
Definition _register_component_type (cls : Class) : Store unit := λ w,
  (MkWorld (bucket w) (<[__name__ cls := cls]> (component_classes w)) (random w),
   inr ()).

(** [_create_data_blob]: one blob per field of a component. *)
Definition _create_data_blob (cid varname : string) (data : Value) : Store unit :=
  let '(final_data, mime_type) := serialize data in
  upload (data_blob_name cid varname) (MkBlob final_data mime_type).

(** [component._uid]; reading the attribute of a component that was
    never given one raises. *)
Definition read_uid (component : Component Value) : Store string :=
  match _uid component with
  | Some cid => mret cid
  | None => throw (Py.AttributeError "_uid")
  end.

(** The [for varname in vars] loop of [add_entity] and [update_entity]. *)
Fixpoint write_vars (component : Component Value)
    (vars : list (string * Value)) : Store unit :=
  match vars with
  | [] => mret ()
  | (varname, data) :: rest =>
      cid ← read_uid component;
      _create_data_blob cid varname data;;
      write_vars component rest
  end.

(** The body of the component loop of [add_entity]. *)
Definition add_component (eid : string) (component : Component Value)
    : Store (Component Value) :=
  _register_component_type (class_of component);;
  let component_name := __name__ (class_of component) in
  cid ← draw _random_cid;
  let component :=
    MkComponent (class_of component) (Some cid) (attributes component) in
  _create_empty_blob (forward_blob_name eid component_name cid);;
  _create_empty_blob (type_blob_name component_name eid cid);;
  write_vars component (get_variables_of component);;
  mret component.

(** [add_entity]; returns the entity as the call leaves it together with
    the new identifier.  (The local list [component_uids] is built and
    never read.) *)
Definition add_entity (entity : Entity Value) : Store (Entity Value * string) :=
  new_eid ← draw _random_eid;
  components ← for_all (add_component new_eid) (get_components entity);
  mret (MkEntity (Some new_eid) true components (_unloaded_components entity),
        new_eid).

(** The body of the component loop of [update_entity]. *)
Definition update_component (component : Component Value) : Store unit :=
  write_vars component (get_variables_of component).

(** [update_entity]; the Python function falls off its end. *)
Definition update_entity (entity : Entity Value) : Store unit :=
  for_all update_component (get_components entity);; mret ().

(** [delete_entity] *)
Definition delete_entity (entity : Entity Value) : Store unit :=
  if negb (uid_truthy entity)
  then throw (Py.Exception "Entity has not been saved yet")
  else EntityDB.delete_entity entity.

End Lifecycle.

(** *** Running a system *)

(** The accumulators of [run]: [matched_eids] ([None] until the first
    required type has been scanned) and [all_entities]. *)
Abbreviation entity_cids := (gmap string (gmap string string)).

(** Python truth value of [matched_eids]: [None] and the empty set are false. *)
Definition set_truthy (s : option (gset string)) : bool :=
  match s with
  | None => false
  | Some s => negb (bool_decide (s = ∅))
  end.

(** The body of the blob loop of a required type. *)
Definition scan_included (component_name : string)
    (acc : gset string * entity_cids) (name : string)
    : Py.result (gset string * entity_cids) :=
  '(eid, cid) ← parse_blob_name name;
  let '(found_components, all_entities) := acc in
  mret ({[eid]} ∪ found_components,
        match all_entities !! eid with
        | Some cids => <[eid := <[component_name := cid]> cids]> all_entities
        | None => <[eid := {[component_name := cid]}]> all_entities
        end).

(** The body of the loop over [system.include_components]. *)
Definition include_step (b : gmap string Blob)
    (acc : option (gset string) * entity_cids) (param : string * Class)
    : Py.result (option (gset string) * entity_cids) :=
  let '(matched_eids, all_entities) := acc in
  let component_name := __name__ param.2 in
  let blobs := _search_blobs b (type_prefix component_name) in
  '(found_components, all_entities) ←
    Py.for_each blobs (∅, all_entities) (scan_included component_name);
  if set_truthy matched_eids
  then mret (Some (default ∅ matched_eids ∩ found_components), all_entities)
  else mret (Some found_components, all_entities).

(** The body of the blob loop of an excluded type. *)
Definition scan_excluded (exclude_eids : gset string) (name : string)
    : Py.result (gset string) :=
  '(eid, cid) ← parse_blob_name name;
  mret ({[eid]} ∪ exclude_eids).

(** The body of the loop over [system.exclude_components]; [-=] on [None]
    raises [TypeError]. *)
Definition exclude_step (b : gmap string Blob)
    (matched_eids : option (gset string)) (component : Class)
    : Py.result (option (gset string)) :=
  let blobs := _search_blobs b (type_prefix (__name__ component)) in
  exclude_eids ← Py.for_each blobs ∅ scan_excluded;
  match matched_eids with
  | None => Py.raise Py.TypeError
  | Some matched => mret (Some (matched ∖ exclude_eids))
  end.

(** The last loop of [run]: iterating [None] raises [TypeError], a missing
    key of [all_entities] raises [KeyError]. *)
Definition collect_matched (matched_eids : option (gset string))
    (all_entities : entity_cids) : Py.result entity_cids :=
  match matched_eids with
  | None => Py.raise Py.TypeError
  | Some matched =>
      Py.for_each (elements matched) ∅
        (λ matched_entities eid,
           match all_entities !! eid with
           | Some cids => mret (<[eid := cids]> matched_entities)
           | None => Py.raise (Py.KeyError eid)
           end)
  end.

(** [run] from the compiled query to the argument of [_run_on_entities]. *)
Definition matched_entities_of (b : gmap string Blob) (system : SystemWrapper)
    : Py.result entity_cids :=
  '(matched_eids, all_entities) ←
    Py.for_each (include_components system) (None, ∅) (include_step b);
  matched_eids ← Py.for_each (exclude_components system) matched_eids (exclude_step b);
  collect_matched matched_eids all_entities.

Section Systems.
Context {Callable : Type}.

(** [_parse_system] and [_run_on_entities] are not among the sources;
    the query compiler reads no store state. *)
Variable _parse_system : Callable → Py.result SystemWrapper.
Variable _run_on_entities : SystemWrapper → entity_cids → Store unit.

Definition run (system_func : Callable) : Store unit :=
  system ← reading (λ _, _parse_system system_func);
  matched_entities ← reading (λ w, matched_entities_of (bucket w) system);
  _run_on_entities system matched_entities.

Definition count_matches (system_func : Callable) : Store nat :=
  EntityDB.count_matches system_func.

End Systems.

End EntityDB_GCS.

Import EntityDB_GCS.

#[local] Set Warnings "-clear-no-such-hyp".

(** ** Vocabulary of the statements *)

(** A string of letters and digits, as [_random_id] produces them. *)
Definition is_identifier (s : string) : bool :=
  forallb (λ c, bool_decide (c ∈ (Py.ascii_letters ++ Py.digits)%list))
          (list_ascii_of_string s).

(** A blob name that [run] can unpack into an identifier pair. *)
Definition parses (name : string) : bool :=
  match parse_blob_name name with
  | inr _ => true
  | inl _ => false
  end.

(** The entity identifiers of a listing of the type index. *)
Definition eids_of_names (names : list string) : gset string :=
  list_to_set
    (omap (λ name, match parse_blob_name name with
                   | inr (eid, _) => Some eid
                   | inl _ => None
                   end) names).

(** The entity-id set of a component type in the type index. *)
Definition entity_ids (b : gmap string Blob) (component : Class) : gset string :=
  eids_of_names (_search_blobs b (type_prefix (__name__ component))).

(** The matched entity-id set of [run]: the keys of the mapping that it
    hands to [_run_on_entities]. *)
Definition matched_eids_of (b : gmap string Blob) (system : SystemWrapper)
    : Py.result (gset string) :=
  matched_entities ← matched_entities_of b system; mret (dom matched_entities).

(** What the loop over the required types maintains: every candidate is a
    key of [all_entities]. *)
Definition candidates_known (acc : option (gset string) * entity_cids) : Prop :=
  match acc.1 with
  | Some candidates => candidates ⊆ dom acc.2
  | None => True
  end.

(** The running intersection of [run] is inhabited before each of the
    remaining required types is intersected into it. *)
Fixpoint stays_inhabited (b : gmap string Blob) (candidates : gset string)
    (remaining : list Class) : Prop :=
  match remaining with
  | [] => True
  | component :: remaining' =>
      candidates ≠ ∅ ∧
      stays_inhabited b (candidates ∩ entity_ids b component) remaining'
  end.

(** Every blob listed for the types of a query has a name that unpacks. *)
Definition index_parses (b : gmap string Blob) (system : SystemWrapper) : bool :=
  forallb
    (λ component,
       forallb parses (_search_blobs b (type_prefix (__name__ component))))
    ((include_components system).*2 ++ exclude_components system).

(** A sequence of uploads, applied in order. *)
Definition store_all (writes : list (string * Blob)) (b : gmap string Blob)
    : gmap string Blob :=
  foldl (λ b write, <[write.1 := write.2]> b) b writes.

Section Writes.
Context {Value : Type}.
Variable serialize : Value → string * string.
Variable get_variables_of : Component Value → list (string * Value).

(** The blob that [_create_data_blob] uploads for a value. *)
Definition field_blob (data : Value) : Blob :=
  MkBlob (serialize data).1 (serialize data).2.

(** The field-store uploads for a component that has an identifier. *)
Definition field_writes (component : Component Value) : list (string * Blob) :=
  match _uid component with
  | Some cid =>
      (λ var, (data_blob_name cid var.1, field_blob var.2))
        <$> get_variables_of component
  | None => []
  end.

(** The forward-index and type-index uploads for a component of [eid]. *)
Definition index_writes (eid : string) (component : Component Value)
    : list (string * Blob) :=
  match _uid component with
  | Some cid =>
      [(forward_blob_name eid (__name__ (class_of component)) cid, empty_blob);
       (type_blob_name (__name__ (class_of component)) eid cid, empty_blob)]
  | None => []
  end.

(** A component that has been persisted: it carries an identifier of
    letters and digits. *)
Definition persisted (component : Component Value) : bool :=
  match _uid component with
  | Some cid => is_identifier cid
  | None => false
  end.

(** The component that [add_component] leaves behind when it draws [cid]. *)
Definition identified (cid : string) (component : Component Value) : Component Value :=
  MkComponent (class_of component) (Some cid) (attributes component).

(** What links an added component to the one passed in: the same class
    and attributes, and an identifier drawn by [_random_cid]. *)
Definition added_from (component component' : Component Value) : Prop :=
  ∃ g, component' = identified (_random_cid g).1 component.
End Writes.

(** ** Sample data *)

Module Sample.

Definition Position : Class := MkClass "Position" ["x"; "y"].
Definition Velocity : Class := MkClass "Velocity" ["dx"; "dy"].
Definition Health : Class := MkClass "Health" ["hp"].

(** Text fields, stored as they are. *)
Definition text (data : string) : string * string := (data, "text/plain").

Definition position : Component string :=
  MkComponent Position None [("x", "1"); ("y", "2")].
Definition velocity : Component string :=
  MkComponent Velocity None [("dx", "1"); ("dy", "0")].

(** Two entities that were never saved. *)
Definition mover : Entity string := MkEntity None false [position; velocity] [].
Definition drifter : Entity string := MkEntity None false [velocity] [].

(** Two states of the random module: one whose draws vary, one whose
    draws repeat. *)
Definition varied : Py.rng := Py.Rng (λ n, 7 * n + 3) 0.
Definition steady : Py.rng := Py.Rng (λ _, 0) 0.

(** An empty store. *)
Definition start (g : Py.rng) : World := MkWorld ∅ ∅ g.

(** The store after [mover] has been added to the empty store with the
    varied draws. *)
Definition with_mover : World :=
  MkWorld
    (list_to_map
       [("ent/3kryFMT07elszGNU/Position-l8fmtAHOV29gnuBI", empty_blob);
        ("cmp/Position/3kryFMT07elszGNU-l8fmtAHOV29gnuBI", empty_blob);
        ("dat/l8fmtAHOV29gnuBI/x", MkBlob "1" "text/plain");
        ("dat/l8fmtAHOV29gnuBI/y", MkBlob "2" "text/plain");
        ("ent/3kryFMT07elszGNU/Velocity-tW3ahovCJQX4bipw", empty_blob);
        ("cmp/Velocity/3kryFMT07elszGNU-tW3ahovCJQX4bipw", empty_blob);
        ("dat/tW3ahovCJQX4bipw/dx", MkBlob "1" "text/plain");
        ("dat/tW3ahovCJQX4bipw/dy", MkBlob "0" "text/plain")])
    (list_to_map [("Position", Position); ("Velocity", Velocity)])
    (Py.Rng (λ n, 7 * n + 3) 48).

(** The store after [drifter] has been added as well. *)
Definition populated : World :=
  MkWorld
    (list_to_map
       [("ent/3kryFMT07elszGNU/Position-l8fmtAHOV29gnuBI", empty_blob);
        ("cmp/Position/3kryFMT07elszGNU-l8fmtAHOV29gnuBI", empty_blob);
        ("dat/l8fmtAHOV29gnuBI/x", MkBlob "1" "text/plain");
        ("dat/l8fmtAHOV29gnuBI/y", MkBlob "2" "text/plain");
        ("ent/3kryFMT07elszGNU/Velocity-tW3ahovCJQX4bipw", empty_blob);
        ("cmp/Velocity/3kryFMT07elszGNU-tW3ahovCJQX4bipw", empty_blob);
        ("dat/tW3ahovCJQX4bipw/dx", MkBlob "1" "text/plain");
        ("dat/tW3ahovCJQX4bipw/dy", MkBlob "0" "text/plain");
        ("ent/9KRY5cjqxELSZ6dk/Velocity-JyFMT07elszGNU18", empty_blob);
        ("cmp/Velocity/9KRY5cjqxELSZ6dk-JyFMT07elszGNU18", empty_blob);
        ("dat/JyFMT07elszGNU18/dx", MkBlob "1" "text/plain");
        ("dat/JyFMT07elszGNU18/dy", MkBlob "0" "text/plain")])
    (list_to_map [("Position", Position); ("Velocity", Velocity)])
    (Py.Rng (λ n, 7 * n + 3) 80).


(** [saved_mover] with only its [Position] loaded. *)
Definition position_only : Entity string :=
  MkEntity (Some "3kryFMT07elszGNU") true
    [MkComponent Position (Some "l8fmtAHOV29gnuBI") [("x", "1"); ("y", "2")]]
    [Velocity].

(** A query for the entities that have a [Position] and no [Velocity]. *)
Definition resting : SystemWrapper := MkSystem [("p", Position)] [Velocity].

(** A query without required types. *)
Definition not_moving : SystemWrapper := MkSystem [] [Velocity].

(** Systems given directly by their compiled query, and an executor that
    does nothing with the matches. *)
Definition compiled (system_func : SystemWrapper) : Py.result SystemWrapper :=
  Py.ok system_func.
Definition visit (system : SystemWrapper)
    (matched_entities : gmap string (gmap string string)) : Store unit :=
  mret ().



(** A mapping fetched for a [Position] whose blobs hold one field that
    the class no longer declares. *)
Definition fetched : gmap string string :=
  list_to_map
    [("x", "1"); ("y", "2"); ("z", "3");
     ("_uid", "l8fmtAHOV29gnuBI"); ("_entity", "3kryFMT07elszGNU")].

End Sample.

(** ** Loading an entity *)

(** [f"{DATA_FOLDER}/{cid}/"], the prefix that [_load_entity_from_cids]
    searches. *)
Definition data_prefix (cid : string) : string :=
  DATA_FOLDER +:+ "/" +:+ cid +:+ "/".

(** [blob.name.split("/")[-1]] *)
Definition varname_of (name : string) : string :=
  Py.last_item (Py.split "/" name).

(** The blob loop of [_load_entity_from_cids]: [component_data] maps the
    last segment of each listed blob name to the downloaded payload. *)
Definition fetch_component_data (b : gmap string Blob) (cid : string)
    : gmap string string :=
  foldl
    (λ component_data name,
       match b !! name with
       | Some blob => <[varname_of name := payload blob]> component_data
       | None => component_data
       end)
    ∅ (_search_blobs b (data_prefix cid)).

(** [result._components[component_type] = new_component] on the loaded
    components, which are keyed by their class. *)
Fixpoint set_component {Value} (components : list (Component Value))
    (new_component : Component Value) : list (Component Value) :=
  match components with
  | [] => [new_component]
  | component :: rest =>
      if decide (class_of component = class_of new_component)
      then new_component :: rest
      else component :: set_component rest new_component
  end.

(** The call [self._create_component_from_data(component_type,
    component_data, cid)]: the method takes two arguments besides [self], so
    the call raises [TypeError] before the method's body runs. *)
Definition create_component_with_cid (component_type : Class)
    (component_data : gmap string string) (cid : string)
    : Py.result (Component string) :=
  Py.raise Py.TypeError.

(** The body of the component loop of [_load_entity_from_cids]. *)
Definition load_step (w : World) (result : Entity string)
    (entry : string * string) : Py.result (Entity string) :=
  let '(comp_name, cid) := entry in
  let component_data := fetch_component_data (bucket w) cid in
  match component_classes w !! comp_name with
  | None => Py.raise (Py.KeyError comp_name)
  | Some component_type =>
      new_component ← create_component_with_cid component_type component_data cid;
      mret (MkEntity (uid result) (db result)
                     (set_component (_components result) new_component)
                     (_unloaded_components result))
  end.

(** [_load_entity_from_cids]; [Entity([])] is an entity without identifier,
    store or components. *)
Definition _load_entity_from_cids (eid : string) (components : gmap string string)
    (w : World) : Py.result (Entity string) :=
  Py.for_each (map_to_list components) (MkEntity (Some eid) false [] []) (load_step w).

(** ** Further vocabulary *)

(** The last upload to [name] in a sequence of uploads. *)
Fixpoint last_write (name : string) (writes : list (string * Blob)) : option Blob :=
  match writes with
  | [] => None
  | write :: rest =>
      match last_write name rest with
      | Some blob => Some blob
      | None => if decide (write.1 = name) then Some write.2 else None
      end
  end.

(** A blob name of the field store. *)
Definition is_data_name (name : string) : Prop :=
  is_Some (Py.strip_prefix (DATA_FOLDER +:+ "/") name).

#[global] Instance is_data_name_dec name : Decision (is_data_name name).
Proof. unfold is_data_name. apply _. Defined.

(** A class name without the blob-name delimiter, as every Python
    identifier is. *)
Definition plain_name (name : string) : bool := negb (Py.occurs "/" name).

(** The names of the classes of an entity's loaded components. *)
Definition class_names {Value} (entity : Entity Value) : list string :=
  (λ component, __name__ (class_of component)) <$> get_components entity.

(** What [run] knows of an entity's components: every entry of a
    [component name -> cid] mapping comes from a listed blob of the type
    index of a required type of that name. *)
Definition indexed (b : gmap string Blob) (types : list Class) (eid : string)
    (cids : gmap string string) : Prop :=
  ∀ name cid,
    cids !! name = Some cid →
    ∃ component blob_name,
      component ∈ types ∧ __name__ component = name ∧
      blob_name ∈ _search_blobs b (type_prefix name) ∧
      is_Some (b !! blob_name) ∧
      parse_blob_name blob_name = Py.ok (eid, cid).

(** A class name with neither of the two separators of the blob names. *)
Definition identifier_name (name : string) : bool :=
  negb (Py.occurs "/" name) && negb (Py.occurs "-" name).

(** The forward index and the type index hold the same triples of entity
    identifier, class name and component identifier. *)
Definition indexes_agree (b : gmap string Blob) : Prop :=
  ∀ eid name cid,
    is_identifier eid = true → identifier_name name = true →
    is_Some (b !! forward_blob_name eid name cid) ↔
    is_Some (b !! type_blob_name name eid cid).

(** ** More sample data *)

Module SampleQueries.

(** A query for the entities that have a [Position] and a [Velocity]. *)
Definition moving : SystemWrapper :=
  MkSystem [("p", Sample.Position); ("v", Sample.Velocity)] [].

(** A query for the entities that have a [Velocity] and no [Health]. *)
Definition unhurt : SystemWrapper :=
  MkSystem [("v", Sample.Velocity)] [Sample.Health].

(** An entity without components that was never saved. *)
Definition bare : Entity string := MkEntity None false [] [].

End SampleQueries.

(** ** Sample data with a repeated component identifier *)

Module SampleRepeat.

(** A class that has the field names of [Sample.Position]. *)
Definition Target : Class := MkClass "Target" ["x"; "y"].

Definition target : Component string :=
  MkComponent Target None [("x", "5"); ("y", "6")].

(** An entity with a [Position] and a [Target] that was never saved. *)
Definition seeker : Entity string :=
  MkEntity None false [Sample.position; target] [].

(** [add_entity] on [seeker], from the empty store, when the draws
    repeat. *)
Definition seeker_added : World * Py.result (Entity string * string) :=
  add_entity Sample.text attributes seeker (Sample.start Sample.steady).

(** The store that call leaves: both components carry the identifier
    [aaaaaaaaaaaaaaaa], so the fields of the [Target], uploaded last, are the
    ones that the field store holds. *)
Definition with_seeker : World :=
  MkWorld
    (list_to_map
       [("ent/0aaaaaaaaaaaaaaa/Position-aaaaaaaaaaaaaaaa", empty_blob);
        ("cmp/Position/0aaaaaaaaaaaaaaa-aaaaaaaaaaaaaaaa", empty_blob);
        ("ent/0aaaaaaaaaaaaaaa/Target-aaaaaaaaaaaaaaaa", empty_blob);
        ("cmp/Target/0aaaaaaaaaaaaaaa-aaaaaaaaaaaaaaaa", empty_blob);
        ("dat/aaaaaaaaaaaaaaaa/x", MkBlob "5" "text/plain");
        ("dat/aaaaaaaaaaaaaaaa/y", MkBlob "6" "text/plain")])
    (list_to_map [("Position", Sample.Position); ("Target", Target)])
    (Py.Rng (λ _, 0) 48).

(** [seeker] as that call leaves it. *)
Definition saved_seeker : Entity string :=
  MkEntity (Some "0aaaaaaaaaaaaaaa") true
    [MkComponent Sample.Position (Some "aaaaaaaaaaaaaaaa") [("x", "1"); ("y", "2")];
     MkComponent Target (Some "aaaaaaaaaaaaaaaa") [("x", "5"); ("y", "6")]]
    [].

(** [saved_seeker] with only its [Position] loaded. *)
Definition seeker_position_only : Entity string :=
  MkEntity (Some "0aaaaaaaaaaaaaaa") true
    [MkComponent Sample.Position (Some "aaaaaaaaaaaaaaaa") [("x", "1"); ("y", "2")]]
    [Target].

(** [update_entity] on it. *)
Definition seeker_updated : World * Py.result unit :=
  update_entity Sample.text attributes seeker_position_only with_seeker.

End SampleRepeat.

(** Closed decidable statements are settled by evaluation. *)
Ltac by_computation := apply (bool_decide_unpack _); vm_compute; exact I.

(** * Properties *)

(** ** Strings *)

Lemma split_nonempty sep s : Py.split sep s ≠ [].
Proof.
  destruct s as [|c s]; simpl; [done|].
  case_decide; [done|]. by destruct (Py.split sep s).
Qed.

Lemma split_absent sep s : Py.occurs sep s = false → Py.split sep s = [s].
Proof.
  induction s as [|c s IH]; simpl; [done|].
  intros [Hc Hs]%orb_false_elim.
  apply bool_decide_eq_false in Hc.
  rewrite decide_False by done. by rewrite IH.
Qed.

Lemma split_app sep a b :
  Py.split sep (a +:+ String sep b) = Py.split sep a ++ Py.split sep b.
Proof.
  induction a as [|c a IH]; simpl.
  - by rewrite decide_True.
  - case_decide; [by rewrite IH|].
    rewrite IH. pose proof (split_nonempty sep a).
    by destruct (Py.split sep a).
Qed.

Lemma last_item_app l1 l2 : l2 ≠ [] → Py.last_item (l1 ++ l2) = Py.last_item l2.
Proof.
  unfold Py.last_item. intros Hne.
  destruct (exists_last Hne) as (l & x & ->).
  by rewrite app_assoc, !last_last.
Qed.

Lemma occurs_app c a b : Py.occurs c (a +:+ b) = Py.occurs c a || Py.occurs c b.
Proof. induction a as [|c' a IH]; simpl; [done|]. by rewrite IH, orb_assoc. Qed.

Lemma length_app_string a b : String.length (a +:+ b) = String.length a + String.length b.
Proof. induction a; simpl; auto. Qed.

(** ** Identifiers *)

Lemma choice_elem seq g : seq ≠ [] → (Py.choice seq g).1 ∈ seq.
Proof.
  intros Hne. unfold Py.choice. simpl.
  apply list_elem_of_In, nth_In.
  apply Nat.mod_upper_bound. by destruct seq.
Qed.

Lemma choice_elem' seq g c g1 : seq ≠ [] → Py.choice seq g = (c, g1) → c ∈ seq.
Proof. intros Hne Hc. replace c with (Py.choice seq g).1 by (by rewrite Hc). by apply choice_elem. Qed.

Lemma random_id_spec n g :
  String.length (_random_id n g).1 = n ∧ is_identifier (_random_id n g).1 = true.
Proof.
  revert g. induction n as [|n IH]; intros g; [done|].
  cbn [_random_id].
  destruct (Py.choice (Py.ascii_letters ++ Py.digits) g) as [c g1] eqn:Hc.
  specialize (IH g1). destruct (_random_id n g1) as [s g2].
  cbn [fst] in *. destruct IH as [IHl IH].
  split; [by cbn [String.length]; rewrite IHl|].
  unfold is_identifier in *. cbn [list_ascii_of_string forallb].
  rewrite IH, andb_true_r.
  apply bool_decide_eq_true. by eapply choice_elem'.
Qed.

Lemma random_eid_spec g :
  String.length (_random_eid g).1 = UID_LENGTH ∧ is_identifier (_random_eid g).1 = true.
Proof.
  unfold _random_eid.
  destruct (Py.choice Py.digits g) as [c g1] eqn:Hc.
  destruct (random_id_spec (UID_LENGTH - 1) g1) as [Hlen Hid].
  destruct (_random_id _ g1) as [s g2]. cbn [fst] in *.
  split; [by cbn [String.length]; rewrite Hlen|].
  unfold is_identifier in *. cbn [list_ascii_of_string forallb].
  rewrite Hid, andb_true_r.
  apply bool_decide_eq_true, elem_of_app. right. by eapply choice_elem'.
Qed.

Lemma random_cid_spec g :
  String.length (_random_cid g).1 = UID_LENGTH ∧ is_identifier (_random_cid g).1 = true.
Proof.
  unfold _random_cid.
  destruct (Py.choice Py.ascii_letters g) as [c g1] eqn:Hc.
  destruct (random_id_spec (UID_LENGTH - 1) g1) as [Hlen Hid].
  destruct (_random_id _ g1) as [s g2]. cbn [fst] in *.
  split; [by cbn [String.length]; rewrite Hlen|].
  unfold is_identifier in *. cbn [list_ascii_of_string forallb].
  rewrite Hid, andb_true_r.
  apply bool_decide_eq_true, elem_of_app. left. by eapply choice_elem'.
Qed.

Lemma identifier_avoids (c : ascii) s :
  c ∉ (Py.ascii_letters ++ Py.digits)%list → is_identifier s = true → Py.occurs c s = false.
Proof.
  intros Hc. unfold is_identifier.
  induction s as [|c' s IH]; simpl; [done|].
  intros [Hc' Hs]%andb_prop. rewrite (IH Hs), orb_false_r.
  apply bool_decide_eq_false. intros ->.
  by apply bool_decide_eq_true in Hc'.
Qed.

Lemma identifier_no_slash s : is_identifier s = true → Py.occurs "/" s = false.
Proof. apply identifier_avoids. by apply (bool_decide_unpack _). Qed.

Lemma identifier_no_dash s : is_identifier s = true → Py.occurs "-" s = false.
Proof. apply identifier_avoids. by apply (bool_decide_unpack _). Qed.

(** ** Parsing the names of the type index *)

Lemma parse_type_blob_name component_name eid cid :
  Py.occurs "/" eid = false → Py.occurs "-" eid = false →
  Py.occurs "/" cid = false → Py.occurs "-" cid = false →
  parse_blob_name (type_blob_name component_name eid cid) = Py.ok (eid, cid).
Proof.
  intros He1 He2 Hc1 Hc2.
  unfold parse_blob_name, BLOBNAME_DELIMITER.
  change (type_blob_name component_name eid cid) with
    (COMPONENT_FOLDER +:+ String "/" (component_name +:+ String "/" (eid +:+ String "-" cid))).
  rewrite !split_app, !app_assoc.
  rewrite last_item_app by apply split_nonempty.
  rewrite (split_absent "/") by (by rewrite occurs_app; simpl; rewrite He1, Hc1).
  unfold Py.last_item. simpl.
  by rewrite split_app, !split_absent.
Qed.

(** C10: an entity identifier made by [_random_eid] and a component
    identifier made by [_random_cid] are 16 letters or digits each, and the
    type-index blob name built from them, whatever the type name, parses
    back to exactly that pair. *)
Theorem type_blob_name_roundtrip (g1 g2 : Py.rng) (component_name : string) :
  let eid := (_random_eid g1).1 in
  let cid := (_random_cid g2).1 in
  String.length eid = 16 ∧ String.length cid = 16 ∧
  is_identifier eid = true ∧ is_identifier cid = true ∧
  Py.occurs "-" eid = false ∧ Py.occurs "/" eid = false ∧
  Py.occurs "-" cid = false ∧ Py.occurs "/" cid = false ∧
  parse_blob_name (type_blob_name component_name eid cid) = Py.ok (eid, cid).
Proof.
  intros eid cid.
  destruct (random_eid_spec g1) as [Hle Hie].
  destruct (random_cid_spec g2) as [Hlc Hic].
  pose proof (identifier_no_slash _ Hie). pose proof (identifier_no_dash _ Hie).
  pose proof (identifier_no_slash _ Hic). pose proof (identifier_no_dash _ Hic).
  repeat split; try done.
  by apply parse_type_blob_name.
Qed.

(** ** The matcher of [run] *)

Lemma eids_of_names_cons name names :
  eids_of_names (name :: names) =
  match parse_blob_name name with
  | inr (eid, _) => {[eid]} ∪ eids_of_names names
  | inl _ => eids_of_names names
  end.
Proof.
  unfold eids_of_names. simpl.
  by destruct (parse_blob_name name) as [|[]].
Qed.

Lemma bind_ok {A B} (a : A) (k : A → Py.result B) : Py.ok a ≫= k = k a.
Proof. reflexivity. Qed.

Lemma bind_ret {A B} (a : A) (k : A → Py.result B) : mret a ≫= k = k a.
Proof. reflexivity. Qed.

Lemma for_each_cons {A S} (x : A) rest (acc : S) body :
  Py.for_each (x :: rest) acc body = body acc x ≫= λ acc', Py.for_each rest acc' body.
Proof. reflexivity. Qed.

Lemma scan_excluded_parsed acc name eid cid :
  parse_blob_name name = inr (eid, cid) →
  scan_excluded acc name = Py.ok ({[eid]} ∪ acc).
Proof. intros H. unfold scan_excluded. by rewrite H. Qed.

Lemma scan_included_parsed component_name found (all_entities : entity_cids)
    name eid cid :
  parse_blob_name name = inr (eid, cid) →
  scan_included component_name (found, all_entities) name =
  Py.ok ({[eid]} ∪ found,
         match all_entities !! eid with
         | Some cids => <[eid := <[component_name := cid]> cids]> all_entities
         | None => <[eid := {[component_name := cid]}]> all_entities
         end).
Proof. intros H. unfold scan_included. by rewrite H. Qed.

Lemma scan_excluded_loop names acc :
  forallb parses names = true →
  Py.for_each names acc scan_excluded = Py.ok (eids_of_names names ∪ acc).
Proof.
  revert acc. induction names as [|name names IH]; intros acc Hp.
  - unfold eids_of_names. simpl. f_equal. set_solver.
  - simpl in Hp. apply andb_prop in Hp as [Hn Hp].
    rewrite eids_of_names_cons, for_each_cons. unfold parses in Hn.
    destruct (parse_blob_name name) as [|[eid cid]] eqn:Hparse; [done|].
    rewrite (scan_excluded_parsed _ _ _ _ Hparse), bind_ok, IH by done.
    f_equal. set_solver.
Qed.

Lemma scan_included_loop component_name names found (all_entities : entity_cids) :
  forallb parses names = true →
  ∃ all_entities' : entity_cids,
    Py.for_each names (found, all_entities) (scan_included component_name)
      = Py.ok (eids_of_names names ∪ found, all_entities') ∧
    dom all_entities' = eids_of_names names ∪ dom all_entities.
Proof.
  revert found all_entities.
  induction names as [|name names IH]; intros found all_entities Hp.
  - exists all_entities. unfold eids_of_names. simpl.
    split; [f_equal; f_equal|]; set_solver.
  - simpl in Hp. apply andb_prop in Hp as [Hn Hp].
    rewrite eids_of_names_cons, for_each_cons. unfold parses in Hn.
    destruct (parse_blob_name name) as [|[eid cid]] eqn:Hparse; [done|].
    rewrite (scan_included_parsed _ _ _ _ _ _ Hparse), bind_ok.
    edestruct (IH ({[eid]} ∪ found)) as (all' & -> & Hdom); [done|].
    exists all'. split; [f_equal; f_equal; set_solver|].
    rewrite Hdom. destruct (all_entities !! eid); rewrite dom_insert_L; set_solver.
Qed.

Lemma include_step_spec b acc (param : string * Class) :
  candidates_known acc →
  forallb parses (_search_blobs b (type_prefix (__name__ param.2))) = true →
  ∃ candidates all_entities,
    include_step b acc param = Py.ok (Some candidates, all_entities) ∧
    candidates_known (Some candidates, all_entities) ∧
    candidates =
      (if set_truthy acc.1 then default ∅ acc.1 ∩ entity_ids b param.2
       else entity_ids b param.2).
Proof.
  destruct acc as [matched all_entities]. intros Hinv Hp.
  unfold include_step.
  destruct (scan_included_loop (__name__ param.2) _ ∅ all_entities Hp)
    as (all' & -> & Hdom).
  simpl. unfold entity_ids.
  destruct (set_truthy matched); simpl; eexists _, _;
    (split; [reflexivity|]); (split; [|f_equal; set_solver]);
    unfold candidates_known; simpl; rewrite Hdom; set_solver.
Qed.

Lemma include_loop_spec b params acc :
  candidates_known acc →
  forallb (λ component,
     forallb parses (_search_blobs b (type_prefix (__name__ component))))
    params.*2 = true →
  ∃ acc',
    Py.for_each params acc (include_step b) = Py.ok acc' ∧
    candidates_known acc' ∧
    (is_Some acc.1 ∨ params ≠ [] → is_Some acc'.1).
Proof.
  revert acc. induction params as [|param params IH]; intros acc Hinv Hp.
  - exists acc. split_and!; [done..|]. by intros [?|?].
  - simpl in Hp. apply andb_prop in Hp as [Hn Hp]. rewrite for_each_cons.
    destruct (include_step_spec b acc param Hinv Hn) as (c & all' & -> & Hinv' & _).
    rewrite bind_ok. destruct (IH _ Hinv' Hp) as (acc' & -> & Hinv'' & Hsome).
    exists acc'. split_and!; [done..|]. intros _. apply Hsome. left. by eexists.
Qed.

(** Where no running intersection is empty before the last required type,
    the loop over the required types computes the intersection of their
    entity-id sets. *)
Lemma include_loop_intersection b params candidates (all_entities : entity_cids) :
  candidates_known (Some candidates, all_entities) →
  forallb (λ component,
     forallb parses (_search_blobs b (type_prefix (__name__ component))))
    params.*2 = true →
  stays_inhabited b candidates params.*2 →
  ∃ all_entities' : entity_cids,
    Py.for_each params (Some candidates, all_entities) (include_step b)
      = Py.ok (Some (foldl (λ acc component, acc ∩ entity_ids b component)
                           candidates params.*2),
               all_entities').
Proof.
  revert candidates all_entities.
  induction params as [|param params IH]; intros candidates all_entities Hinv Hp Hstay.
  - by exists all_entities.
  - rewrite fmap_cons in Hp, Hstay. cbn [forallb stays_inhabited] in Hp, Hstay.
    apply andb_prop in Hp as [Hn Hp]. destruct Hstay as [Hne Hstay].
    rewrite for_each_cons.
    destruct (include_step_spec b (Some candidates, all_entities) param Hinv Hn)
      as (c & all' & -> & Hinv' & Hc).
    cbn [fst set_truthy default] in Hc.
    rewrite bool_decide_eq_false_2 in Hc by done. cbn [negb] in Hc. subst c.
    rewrite bind_ok.
    destruct (IH _ all' Hinv' Hp Hstay) as (all'' & ->).
    by exists all''.
Qed.

Lemma exclude_step_spec b candidates component :
  forallb parses (_search_blobs b (type_prefix (__name__ component))) = true →
  exclude_step b (Some candidates) component
    = Py.ok (Some (candidates ∖ entity_ids b component)).
Proof.
  intros Hn. unfold exclude_step.
  rewrite (scan_excluded_loop _ _ Hn), bind_ok. unfold entity_ids.
  do 2 f_equal. set_solver.
Qed.

Lemma exclude_loop_spec b excluded candidates :
  forallb (λ component,
     forallb parses (_search_blobs b (type_prefix (__name__ component))))
    excluded = true →
  Py.for_each excluded (Some candidates) (exclude_step b)
    = Py.ok (Some (candidates ∖ ⋃ (entity_ids b <$> excluded))).
Proof.
  revert candidates.
  induction excluded as [|component excluded IH]; intros candidates Hp.
  - simpl. do 2 f_equal. set_solver.
  - simpl in Hp. apply andb_prop in Hp as [Hn Hp].
    rewrite for_each_cons, exclude_step_spec, bind_ok, IH by done.
    rewrite fmap_cons, union_list_cons. do 2 f_equal. set_solver.
Qed.

Lemma collect_loop (all_entities : entity_cids) eids (acc : entity_cids) :
  (∀ eid, eid ∈ eids → is_Some (all_entities !! eid)) →
  ∃ m : entity_cids,
    Py.for_each eids acc
      (λ matched_entities eid,
         match all_entities !! eid with
         | Some cids => mret (<[eid := cids]> matched_entities)
         | None => Py.raise (Py.KeyError eid)
         end) = Py.ok m ∧
    dom m = list_to_set eids ∪ dom acc.
Proof.
  revert acc. induction eids as [|eid eids IH]; intros acc Hk.
  - exists acc. split; [done|set_solver].
  - destruct (Hk eid) as [cids Hcids]; [set_solver|].
    rewrite for_each_cons, Hcids, bind_ret.
    destruct (IH (<[eid := cids]> acc)) as (m & -> & Hdom); [set_solver|].
    exists m. split; [done|]. rewrite Hdom, dom_insert_L. set_solver.
Qed.

Lemma collect_matched_spec candidates (all_entities : entity_cids) :
  candidates ⊆ dom all_entities →
  ∃ m : entity_cids,
    collect_matched (Some candidates) all_entities = Py.ok m ∧ dom m = candidates.
Proof.
  intros Hsub. unfold collect_matched.
  destruct (collect_loop all_entities (elements candidates) ∅) as (m & -> & Hdom).
  - intros eid Hin. apply elem_of_dom, Hsub. set_solver.
  - exists m. split; [done|]. rewrite Hdom, list_to_set_elements_L. set_solver.
Qed.

Lemma parse_blob_name_error name err :
  parse_blob_name name = inl err → err = Py.ValueError.
Proof.
  unfold parse_blob_name.
  unfold Py.raise, Py.ok.
  destruct (Py.split "-" _) as [|? [|? [|? ?]]]; congruence.
Qed.

Lemma scan_excluded_loop_error names acc err :
  Py.for_each names acc scan_excluded = inl err → err = Py.ValueError.
Proof.
  revert acc. induction names as [|name names IH]; intros acc; [done|].
  rewrite for_each_cons.
  destruct (parse_blob_name name) as [err'|[eid cid]] eqn:Hparse.
  - unfold scan_excluded. rewrite Hparse. intros [= <-].
    by eapply parse_blob_name_error.
  - rewrite (scan_excluded_parsed _ _ _ _ Hparse), bind_ok. apply IH.
Qed.

Lemma exclude_step_none b component :
  exclude_step b None component = inl Py.TypeError ∨
  exclude_step b None component = inl Py.ValueError.
Proof.
  unfold exclude_step.
  destruct (Py.for_each _ ∅ scan_excluded) as [err|eids] eqn:Hscan.
  - right. by rewrite (scan_excluded_loop_error _ _ _ Hscan).
  - by left.
Qed.

Lemma exclude_loop_none b excluded :
  Py.for_each excluded None (exclude_step b) = Py.ok None ∨
  Py.for_each excluded None (exclude_step b) = inl Py.TypeError ∨
  Py.for_each excluded None (exclude_step b) = inl Py.ValueError.
Proof.
  destruct excluded as [|component excluded]; [by left|]. right.
  rewrite for_each_cons.
  destruct (exclude_step_none b component) as [-> | ->]; auto.
Qed.

Lemma matched_entities_of_no_required b excluded :
  matched_entities_of b (MkSystem [] excluded) = inl Py.TypeError ∨
  matched_entities_of b (MkSystem [] excluded) = inl Py.ValueError.
Proof.
  unfold matched_entities_of. cbn [include_components exclude_components Py.for_each].
  rewrite bind_ok.
  destruct (exclude_loop_none b excluded) as [-> | [-> | ->]]; auto.
Qed.

Lemma matched_entities_of_spec (b : gmap string Blob) (system : SystemWrapper) :
  include_components system ≠ [] →
  index_parses b system = true →
  ∃ (candidates : gset string) (all_entities matched_entities : entity_cids),
    Py.for_each (include_components system) (None, ∅) (include_step b)
      = Py.ok (Some candidates, all_entities) ∧
    matched_entities_of b system = Py.ok matched_entities ∧
    dom matched_entities =
      candidates ∖ ⋃ (entity_ids b <$> exclude_components system) ∧
    ∀ component eid,
      component ∈ exclude_components system →
      eid ∈ entity_ids b component →
      matched_entities !! eid = None.
Proof.
  intros Hne Hp. unfold index_parses in Hp.
  rewrite forallb_app in Hp. apply andb_prop in Hp as [Hinc Hexc].
  destruct (include_loop_spec b (include_components system) (None, ∅))
    as ([matched all_entities] & Hloop & Hinv & Hsome); [done..|].
  destruct Hsome as [candidates Hc]; [by right|]. simpl in Hc. subst matched.
  unfold candidates_known in Hinv. simpl in Hinv.
  destruct (collect_matched_spec
              (candidates ∖ ⋃ (entity_ids b <$> exclude_components system))
              all_entities) as (m & Hm & Hdom); [set_solver|].
  exists candidates, all_entities, m. split_and!; [done| |done|].
  - unfold matched_entities_of.
    by rewrite Hloop, bind_ok, exclude_loop_spec, bind_ok.
  - intros component eid Hin Heid. apply not_elem_of_dom. rewrite Hdom.
    intros [_ Hnot]%elem_of_difference. apply Hnot.
    apply elem_of_union_list. exists (entity_ids b component).
    split; [|done]. by apply list_elem_of_fmap_2.
Qed.

Lemma bind_ok_inv {A B} (r : Py.result A) (k : A → Py.result B) (y : B) :
  r ≫= k = Py.ok y → ∃ x, r = Py.ok x ∧ k x = Py.ok y.
Proof. destruct r as [err|x]; [done|]. intros Hk. by exists x. Qed.

Lemma scan_excluded_loop_ok names acc eids :
  Py.for_each names acc scan_excluded = Py.ok eids → forallb parses names = true.
Proof.
  revert acc. induction names as [|name names IH]; intros acc; [done|].
  rewrite for_each_cons. intros (acc' & Hstep & Hrest)%bind_ok_inv.
  rewrite ?fmap_cons. cbn [forallb]. apply andb_true_intro.
  split; [|by eapply IH].
  unfold scan_excluded in Hstep. unfold parses.
  by destruct (parse_blob_name name).
Qed.

Lemma scan_included_loop_ok component_name names acc acc' :
  Py.for_each names acc (scan_included component_name) = Py.ok acc' →
  forallb parses names = true.
Proof.
  revert acc. induction names as [|name names IH]; intros acc; [done|].
  rewrite for_each_cons. intros (acc1 & Hstep & Hrest)%bind_ok_inv.
  rewrite ?fmap_cons. cbn [forallb]. apply andb_true_intro.
  split; [|by eapply IH].
  unfold scan_included in Hstep. unfold parses.
  by destruct (parse_blob_name name).
Qed.

Lemma include_loop_ok b params acc acc' :
  Py.for_each params acc (include_step b) = Py.ok acc' →
  forallb (λ component,
     forallb parses (_search_blobs b (type_prefix (__name__ component))))
    params.*2 = true.
Proof.
  revert acc. induction params as [|param params IH]; intros acc; [done|].
  rewrite for_each_cons. intros (acc1 & Hstep & Hrest)%bind_ok_inv.
  rewrite ?fmap_cons. cbn [forallb]. apply andb_true_intro.
  split; [|by eapply IH].
  unfold include_step in Hstep. destruct acc as [matched all_entities].
  apply bind_ok_inv in Hstep as (scanned & Hscan & _).
  by eapply scan_included_loop_ok.
Qed.

Lemma exclude_loop_ok b excluded matched matched' :
  Py.for_each excluded matched (exclude_step b) = Py.ok matched' →
  forallb (λ component,
     forallb parses (_search_blobs b (type_prefix (__name__ component))))
    excluded = true.
Proof.
  revert matched. induction excluded as [|component excluded IH]; intros matched; [done|].
  rewrite for_each_cons. intros (matched1 & Hstep & Hrest)%bind_ok_inv.
  rewrite ?fmap_cons. cbn [forallb]. apply andb_true_intro.
  split; [|by eapply IH].
  unfold exclude_step in Hstep.
  apply bind_ok_inv in Hstep as (eids & Hscan & _).
  by eapply scan_excluded_loop_ok.
Qed.

(** [run] reaches [_run_on_entities] only for a query that has a required
    type, over listings whose names unpack. *)
Lemma matched_entities_of_ok_inv b system matched_entities :
  matched_entities_of b system = Py.ok matched_entities →
  include_components system ≠ [] ∧ index_parses b system = true.
Proof.
  intros Hrun. split.
  - intros Hnone. destruct system as [included excluded]. simpl in Hnone. subst.
    destruct (matched_entities_of_no_required b excluded) as [H|H];
      rewrite H in Hrun; discriminate Hrun.
  - unfold matched_entities_of in Hrun.
    apply bind_ok_inv in Hrun as ([matched all_entities] & Hinc & Hrun).
    apply bind_ok_inv in Hrun as (matched' & Hexc & _).
    unfold index_parses. rewrite forallb_app.
    by rewrite (include_loop_ok _ _ _ _ Hinc), (exclude_loop_ok _ _ _ _ Hexc).
Qed.

Lemma matched_entities_of_no_required_parsed b excluded :
  index_parses b (MkSystem [] excluded) = true →
  matched_entities_of b (MkSystem [] excluded) = inl Py.TypeError.
Proof.
  unfold index_parses, matched_entities_of.
  cbn [include_components exclude_components Py.for_each fmap list_fmap app].
  rewrite bind_ok. intros Hp.
  destruct excluded as [|component excluded]; [done|].
  cbn [forallb] in Hp. apply andb_prop in Hp as [Hn _].
  rewrite for_each_cons. unfold exclude_step.
  by rewrite (scan_excluded_loop _ ∅ Hn).
Qed.

(** C3: [run] subtracts the excluded types only for a query that has a
    required type.  With a required type and listed blob names that unpack,
    [run] reaches [_run_on_entities] and the matched set is the candidate
    set of the required types minus the full entity-id set of every
    excluded type, so no entity of an excluded type is matched, whatever
    required types it has.  Without a required type [matched_eids] is still
    [None] when the first excluded set is subtracted from it: [run] raises
    [TypeError] (or the [ValueError] of a blob name that does not unpack)
    and no matched set exists.  In no other case does [run] reach a matched
    set. *)
Theorem run_subtracts_excluded (b : gmap string Blob) (system : SystemWrapper) :
  (include_components system ≠ [] → index_parses b system = true →
   ∃ (candidates : gset string) (all_entities matched_entities : entity_cids),
     Py.for_each (include_components system) (None, ∅) (include_step b)
       = Py.ok (Some candidates, all_entities) ∧
     matched_entities_of b system = Py.ok matched_entities ∧
     dom matched_entities =
       candidates ∖ ⋃ (entity_ids b <$> exclude_components system) ∧
     ∀ component eid,
       component ∈ exclude_components system →
       eid ∈ entity_ids b component →
       matched_entities !! eid = None) ∧
  (include_components system = [] →
   (∃ err, matched_entities_of b system = inl err ∧
           (err = Py.TypeError ∨ err = Py.ValueError)) ∧
   (index_parses b system = true →
    matched_entities_of b system = inl Py.TypeError)) ∧
  (∀ matched_entities,
     matched_entities_of b system = Py.ok matched_entities →
     include_components system ≠ [] ∧ index_parses b system = true).
Proof.
  split_and!.
  - apply matched_entities_of_spec.
  - intros Hnone. destruct system as [included excluded].
    cbn [include_components] in Hnone. subst included. split.
    + destruct (matched_entities_of_no_required b excluded) as [-> | ->];
        eexists; split; eauto.
    + apply matched_entities_of_no_required_parsed.
  - apply matched_entities_of_ok_inv.
Qed.


(** ** Uploads *)

Lemma store_all_app l1 l2 b : store_all (l1 ++ l2) b = store_all l2 (store_all l1 b).
Proof. apply foldl_app. Qed.

Lemma store_all_lookup_other writes b name :
  name ∉ writes.*1 → store_all writes b !! name = b !! name.
Proof.
  revert b. induction writes as [|[n bl] writes IH]; intros b Hn; [done|].
  simpl in *. apply not_elem_of_cons in Hn as [Hne Hn].
  rewrite IH by done. by rewrite lookup_insert_ne.
Qed.

Lemma store_all_lookup_written writes b name :
  name ∈ writes.*1 →
  ∃ blob, (name, blob) ∈ writes ∧ store_all writes b !! name = Some blob.
Proof.
  revert b. induction writes as [|[n bl] writes IH]; intros b Hn.
  - by apply elem_of_nil in Hn.
  - simpl in *. destruct (decide (name ∈ writes.*1)) as [Hin|Hnin].
    + destruct (IH (<[n := bl]> b) Hin) as (blob & Hblob & Hlook).
      exists blob. split; [by right|done].
    + apply elem_of_cons in Hn as [->|Hn]; [|done].
      exists bl. split; [by left|].
      by rewrite store_all_lookup_other, lookup_insert_eq.
Qed.

Lemma store_all_lookup_unique writes b name blob :
  name ∈ writes.*1 →
  (∀ blob', (name, blob') ∈ writes → blob' = blob) →
  store_all writes b !! name = Some blob.
Proof.
  intros Hin Huniq.
  destruct (store_all_lookup_written writes b name Hin) as (blob' & Hb & ->).
  by rewrite (Huniq _ Hb).
Qed.

(** ** Blob names of the three relations *)



Lemma append_sep_inj sep a a' r r' :
  Py.occurs sep a = false → Py.occurs sep a' = false →
  a +:+ String sep r = a' +:+ String sep r' → a = a' ∧ r = r'.
Proof.
  revert a'. induction a as [|c a IH]; intros [|c' a'] Ha Ha' Heq; simpl in *.
  - by injection Heq as ->.
  - injection Heq as <- _. apply orb_false_elim in Ha' as [Hc _].
    by apply bool_decide_eq_false in Hc.
  - injection Heq as -> _. apply orb_false_elim in Ha as [Hc _].
    by apply bool_decide_eq_false in Hc.
  - injection Heq as -> Heq.
    apply orb_false_elim in Ha as [_ Ha]. apply orb_false_elim in Ha' as [_ Ha'].
    destruct (IH a' Ha Ha' Heq) as [-> ->]. done.
Qed.

Lemma data_blob_name_inj cid cid' varname varname' :
  is_identifier cid = true → is_identifier cid' = true →
  data_blob_name cid varname = data_blob_name cid' varname' →
  cid = cid' ∧ varname = varname'.
Proof.
  intros Hc Hc' Heq. unfold data_blob_name in Heq. simpl in Heq.
  injection Heq as Heq.
  apply (append_sep_inj "/"); [by apply identifier_no_slash..|done].
Qed.

(** ** The lifecycle operations as upload sequences *)

Lemma store_bind_run {A B} (m : Store A) (k : A → Store B) w :
  (m ≫= k) w =
  match m w with
  | (w', inl e) => (w', inl e)
  | (w', inr a) => k a w'
  end.
Proof. reflexivity. Qed.

Section LifecycleProperties.
Context {Value : Type}.
Variable serialize : Value → string * string.
Variable get_variables_of : Component Value → list (string * Value).

Local Abbreviation field_writes := (field_writes serialize get_variables_of).
Local Abbreviation add_component := (add_component serialize get_variables_of).
Local Abbreviation add_entity := (add_entity serialize get_variables_of).
Local Abbreviation update_component := (update_component serialize get_variables_of).
Local Abbreviation update_entity := (update_entity serialize get_variables_of).

Lemma write_vars_run component cid vars w :
  _uid component = Some cid →
  write_vars serialize component vars w =
  (MkWorld
     (store_all ((λ var, (data_blob_name cid var.1, field_blob serialize var.2)) <$> vars)
                (bucket w))
     (component_classes w) (random w),
   inr ()).
Proof.
  intros Hcid. revert w. induction vars as [|[varname data] vars IH]; intros w.
  - by destruct w.
  - cbn [write_vars]. rewrite store_bind_run.
    unfold read_uid at 1. rewrite Hcid. cbn [mret Store_ret].
    rewrite store_bind_run. unfold _create_data_blob, field_blob.
    destruct (serialize data) as [final_data mime_type] eqn:Hdata.
    cbn [upload]. rewrite IH. cbn [bucket component_classes random].
    rewrite fmap_cons. unfold store_all. cbn [foldl fst snd].
    by rewrite Hdata.
Qed.

Lemma update_component_run component cid w :
  _uid component = Some cid →
  update_component component w =
  (MkWorld (store_all (field_writes component) (bucket w))
           (component_classes w) (random w),
   inr ()).
Proof.
  intros Hcid. unfold update_component, field_writes.
  by rewrite (write_vars_run _ cid), Hcid.
Qed.

Lemma update_loop_run components w :
  Forall (λ component, is_Some (_uid component)) components →
  ∃ units,
    for_all update_component components w =
    (MkWorld (store_all (concat (field_writes <$> components)) (bucket w))
             (component_classes w) (random w),
     inr units).
Proof.
  intros Hall. revert w.
  induction Hall as [|component components [cid Hcid] _ IH]; intros w.
  - exists []. by destruct w.
  - cbn [for_all]. rewrite store_bind_run, (update_component_run _ cid) by done.
    rewrite store_bind_run.
    destruct (IH (MkWorld (store_all (field_writes component) (bucket w))
                          (component_classes w) (random w))) as (units & ->).
    exists (() :: units). cbn [mret Store_ret bucket component_classes random].
    rewrite fmap_cons. cbn [concat]. by rewrite (store_all_app (field_writes component)).
Qed.

Lemma add_component_run eid component w :
  let cid := (_random_cid (random w)).1 in
  let component' := identified cid component in
  add_component eid component w =
  (MkWorld
     (store_all (index_writes eid component' ++ field_writes component') (bucket w))
     (<[__name__ (class_of component) := class_of component]> (component_classes w))
     (_random_cid (random w)).2,
   inr component').
Proof.
  intros cid component'. unfold add_component.
  do 4 (rewrite store_bind_run;
        cbn [_register_component_type draw _create_empty_blob upload
             bucket component_classes random]).
  rewrite store_bind_run, (write_vars_run _ cid) by done.
  cbn [mret Store_ret bucket component_classes random].
  rewrite store_all_app. unfold field_writes, index_writes.
  by cbn [identified _uid class_of store_all foldl fst snd].
Qed.

Lemma add_loop_run eid components w :
  ∃ w' components',
    for_all (add_component eid) components w = (w', inr components') ∧
    Forall2 added_from components components' ∧
    bucket w' =
      store_all
        (concat ((λ c, index_writes eid c ++ field_writes c) <$> components'))
        (bucket w).
Proof.
  revert w. induction components as [|component components IH]; intros w.
  - exists w, []. by split_and!.
  - cbn [for_all]. rewrite store_bind_run, add_component_run.
    rewrite store_bind_run.
    edestruct IH as (w' & components' & -> & Hall & Hb).
    eexists w', (_ :: components'). split_and!; [done| |].
    + constructor; [|done]. by eexists.
    + rewrite Hb. cbn [bucket].
      rewrite fmap_cons. cbn [concat]. symmetry. apply store_all_app.
Qed.

Lemma add_entity_run entity w :
  ∃ w' components',
    add_entity entity w =
      (w', inr (MkEntity (Some (_random_eid (random w)).1) true components'
                         (_unloaded_components entity),
                (_random_eid (random w)).1)) ∧
    Forall2 added_from (get_components entity) components' ∧
    bucket w' =
      store_all
        (concat ((λ c, index_writes (_random_eid (random w)).1 c ++ field_writes c)
                   <$> components'))
        (bucket w).
Proof.
  unfold add_entity. rewrite store_bind_run. cbn [draw].
  rewrite store_bind_run.
  edestruct (add_loop_run (_random_eid (random w)).1 (get_components entity))
    as (w' & components' & -> & Hall & Hb).
  exists w', components'. split_and!; [done..|]. by rewrite Hb.
Qed.

End LifecycleProperties.

Lemma elem_of_concat {A} (x : A) (ls : list (list A)) :
  x ∈ concat ls ↔ ∃ l, l ∈ ls ∧ x ∈ l.
Proof.
  rewrite list_elem_of_In, in_concat. split.
  - intros (l & Hl & Hx). exists l. by rewrite !list_elem_of_In.
  - intros (l & Hl & Hx). exists l. by rewrite <- !list_elem_of_In.
Qed.

Lemma forallb_elem {A} (f : A → bool) l x :
  forallb f l = true → x ∈ l → f x = true.
Proof. rewrite forallb_forall, list_elem_of_In. auto. Qed.

Lemma NoDup_fst_functional {A B} (l : list (A * B)) x y1 y2 :
  NoDup l.*1 → (x, y1) ∈ l → (x, y2) ∈ l → y1 = y2.
Proof.
  induction l as [|[x' y'] l IH]; simpl; intros Hnd H1 H2.
  - by apply elem_of_nil in H1.
  - apply NoDup_cons in Hnd as [Hnotin Hnd].
    apply elem_of_cons in H1 as [H1|H1], H2 as [H2|H2].
    + congruence.
    + injection H1 as -> ->. destruct Hnotin.
      apply list_elem_of_fmap. by exists (x', y2).
    + injection H2 as -> ->. destruct Hnotin.
      apply list_elem_of_fmap. by exists (x', y1).
    + by apply IH.
Qed.

Section LifecycleClaims.
Context {Value : Type}.
Variable serialize : Value → string * string.
Variable get_variables_of : Component Value → list (string * Value).

Local Abbreviation writes_of := (field_writes serialize get_variables_of).
Local Abbreviation blob_of := (field_blob serialize).
Local Abbreviation add_entity := (add_entity serialize get_variables_of).
Local Abbreviation update_entity := (update_entity serialize get_variables_of).

Lemma field_writes_elem name blob components :
  (name, blob) ∈ concat (writes_of <$> components) ↔
  ∃ component cid varname data,
    component ∈ components ∧ _uid component = Some cid ∧
    (varname, data) ∈ get_variables_of component ∧
    name = data_blob_name cid varname ∧ blob = blob_of data.
Proof.
  rewrite elem_of_concat. split.
  - intros (l & (component & -> & Hin)%list_elem_of_fmap & Hx).
    unfold field_writes in Hx.
    destruct (_uid component) as [cid|] eqn:Hcid; [|by apply elem_of_nil in Hx].
    apply list_elem_of_fmap in Hx as ([varname data] & [= -> ->] & Hvar).
    by exists component, cid, varname, data.
  - intros (component & cid & varname & data & Hin & Hcid & Hvar & -> & ->).
    exists (writes_of component). split; [by apply list_elem_of_fmap_2|].
    unfold field_writes. rewrite Hcid.
    apply list_elem_of_fmap. by exists (varname, data).
Qed.

(** C6, as the code has it: on an entity whose loaded components are
    persisted, [update_entity] succeeds and uploads one field-store blob per
    field of each loaded component, under that component's own identifier;
    every other blob is as before, in particular the blobs of the forward
    and type indexes and the field-store blobs of any identifier that no
    loaded component carries.  The records of a component that is not loaded
    are kept by its identifier, not by its not being loaded. *)
Theorem update_entity_writes_loaded_only (entity : Entity Value) (w : World) :
  forallb persisted (get_components entity) = true →
  let writes := concat (writes_of <$> get_components entity) in
  ∃ b' : gmap string Blob,
    update_entity entity w = (MkWorld b' (component_classes w) (random w), inr ()) ∧
    b' = store_all writes (bucket w) ∧
    (∀ component cid varname data,
       component ∈ get_components entity → _uid component = Some cid →
       (varname, data) ∈ get_variables_of component →
       (∃ blob, (data_blob_name cid varname, blob) ∈ writes ∧
                b' !! data_blob_name cid varname = Some blob) ∧
       (NoDup writes.*1 →
        b' !! data_blob_name cid varname = Some (blob_of data))) ∧
    (∀ name, name ∉ writes.*1 → b' !! name = bucket w !! name) ∧
    (∀ cid varname,
       is_identifier cid = true →
       (∀ component, component ∈ get_components entity → _uid component ≠ Some cid) →
       b' !! data_blob_name cid varname = bucket w !! data_blob_name cid varname) ∧
    (∀ eid component_name cid,
       b' !! forward_blob_name eid component_name cid
         = bucket w !! forward_blob_name eid component_name cid ∧
       b' !! type_blob_name component_name eid cid
         = bucket w !! type_blob_name component_name eid cid).
Proof.
  intros Hpers writes.
  assert (Hall : Forall (λ c : Component Value, is_Some (_uid c)) (get_components entity)).
  { apply Forall_forall. intros c Hc.
    apply forallb_elem with (x := c) in Hpers; [|done].
    unfold persisted in Hpers. by destruct (_uid c). }
  destruct (update_loop_run serialize get_variables_of _ w Hall) as (units & Hrun).
  exists (store_all writes (bucket w)). split_and!; [|done|..].
  - unfold EntityDB_GCS.update_entity. by rewrite store_bind_run, Hrun.
  - intros component cid varname data Hin Hcid Hvar.
    assert (Hw : (data_blob_name cid varname, blob_of data) ∈ writes).
    { apply field_writes_elem. by exists component, cid, varname, data. }
    assert (Hn : data_blob_name cid varname ∈ writes.*1).
    { apply list_elem_of_fmap. by exists (data_blob_name cid varname, blob_of data). }
    split; [by apply store_all_lookup_written|].
    intros Hnd. apply store_all_lookup_unique; [done|].
    intros blob' Hw'. by eapply NoDup_fst_functional.
  - intros name Hn. by apply store_all_lookup_other.
  - intros cid varname Hid Hnot. apply store_all_lookup_other.
    intros ([name blob] & Hname & Hw)%list_elem_of_fmap. simpl in Hname. subst name.
    apply field_writes_elem in Hw
      as (component & cid' & varname' & data & Hin & Hcid & _ & Heq & _).
    apply forallb_elem with (x := component) in Hpers; [|done].
    unfold persisted in Hpers. rewrite Hcid in Hpers.
    apply data_blob_name_inj in Heq as [-> _]; [|done..].
    by apply (Hnot component).
  - intros eid component_name cid.
    split; apply store_all_lookup_other;
      intros ([name blob] & Hname & Hw)%list_elem_of_fmap; simpl in Hname; subst name;
      apply field_writes_elem in Hw as (? & ? & ? & ? & _ & _ & _ & Heq & _);
      discriminate Heq.
Qed.


Lemma added_from_identified (components components' : list (Component Value)) :
  Forall2 added_from components components' →
  Forall (λ component, is_Some (_uid component)) components'.
Proof.
  induction 1 as [|c c' l l' [g ->] _ IH]; constructor; [by eexists|done].
Qed.





(** C7: [delete_entity] on an entity without identifier raises the
    exception "Entity has not been saved yet" and leaves the store, that
    is the three relations in the bucket, the registry and the random
    state, as it was. *)
Theorem delete_entity_unsaved (entity : Entity Value) (w : World) :
  uid entity = None →
  delete_entity entity w = (w, inl (Py.Exception "Entity has not been saved yet")).
Proof.
  intros Huid. unfold delete_entity, uid_truthy. by rewrite Huid.
Qed.

End LifecycleClaims.

(** ** Hydration *)

Lemma component_values_lookup {Raw} (component_data : gmap string Raw) varname :
  EntityDB.component_values component_data !! varname =
  if decide (varname ∈ [EntityDB.PRIMARY_KEY; EntityDB.ENTITY_REFERENCE])
  then None else component_data !! varname.
Proof.
  unfold EntityDB.component_values.
  apply (map_fold_weak_ind
           (λ values data,
              values !! varname =
              if decide (varname ∈ [EntityDB.PRIMARY_KEY; EntityDB.ENTITY_REFERENCE])
              then None else data !! varname)).
  - by case_decide.
  - intros key value data values Hfresh IH.
    destruct (decide (key ∈ _)) as [Hkey|Hkey].
    + rewrite IH. case_decide; [done|].
      rewrite lookup_insert_ne; [done|]. by intros <-.
    + destruct (decide (key = varname)) as [->|Hne].
      * rewrite decide_False by done. by rewrite !lookup_insert_eq.
      * rewrite !lookup_insert_ne by done. done.
Qed.

(** C9, as the code has it: the keyword arguments that
    [_create_component_from_data] hands to the constructor are the fetched
    mapping without the primary-key field ["_uid"] and the back-reference
    field ["_entity"]; every other fetched field is passed with its value,
    whether the type declares it or not. *)
Theorem create_component_strips_key_and_reference {Raw Instance}
    (construct : Class → gmap string Raw → Py.result Instance)
    (component_type : Class) (component_data : gmap string Raw) :
  EntityDB._create_component_from_data construct component_type component_data
    = construct component_type (EntityDB.component_values component_data) ∧
  EntityDB.component_values component_data !! EntityDB.PRIMARY_KEY = None ∧
  EntityDB.component_values component_data !! EntityDB.ENTITY_REFERENCE = None ∧
  ∀ varname,
    EntityDB.component_values component_data !! varname =
    if decide (varname ∈ [EntityDB.PRIMARY_KEY; EntityDB.ENTITY_REFERENCE])
    then None else component_data !! varname.
Proof.
  split_and!; [done|..|apply component_values_lookup];
    rewrite component_values_lookup; by rewrite decide_True by set_solver.
Qed.

(** ** Queries without required types, and counting *)

(** C2: on a query without required types [run] raises, whatever the store
    holds and whatever the query excludes: [matched_eids] is still [None]
    when the exclusions are subtracted from it or when it is iterated, so the
    call ends in [TypeError] (or in the [ValueError] of a blob name that does
    not unpack), the store is unchanged and [_run_on_entities] is not
    reached. *)
Theorem run_without_required_raises {Callable}
    (_parse_system : Callable → Py.result SystemWrapper)
    (_run_on_entities : SystemWrapper → gmap string (gmap string string) → Store unit)
    (system_func : Callable) (system : SystemWrapper) (w : World) :
  _parse_system system_func = Py.ok system →
  include_components system = [] →
  ∃ err, run _parse_system _run_on_entities system_func w = (w, inl err) ∧
         (err = Py.TypeError ∨ err = Py.ValueError).
Proof.
  intros Hparse Hinc. destruct system as [included excluded].
  simpl in Hinc. subst included.
  unfold run. rewrite store_bind_run. unfold reading at 1. rewrite Hparse.
  unfold Py.ok. rewrite store_bind_run. unfold reading.
  destruct (matched_entities_of_no_required (bucket w) excluded) as [-> | ->];
    eexists; split; eauto.
Qed.

(** C4: [count_matches] of the backend defers to the base class, which
    raises [NotImplementedError]: it returns no count for any system and any
    store, and leaves the store unchanged. *)
Theorem count_matches_not_implemented {Callable} (system_func : Callable) (w : World) :
  count_matches system_func w = (w, inl Py.NotImplementedError).
Proof. reflexivity. Qed.

(** ** The code on the sample data *)

Import Sample.


Lemma populated_reached :
  let '(w, r) := add_entity text attributes drifter with_mover in
  bool_decide (bucket w = bucket populated) = true ∧
  bool_decide (component_classes w = component_classes populated) = true ∧
  random w = random populated.
Proof. vm_compute. repeat split. Qed.

(** C1: in a store where one entity has [Position] and [Velocity], another
    has [Velocity] only and none has [Health], a query that requires
    [Health] and then [Position] matches the first entity although the
    intersection of the two entity-id sets is empty; and a query requiring
    [Position], [Health] and [Velocity] matches both entities.  An empty
    candidate set is taken for "not yet initialised" and replaced by the
    next type's set. *)
Theorem run_restarts_from_empty_candidates :
  entity_ids (bucket populated) Health = ∅ ∧
  entity_ids (bucket populated) Position = {["3kryFMT07elszGNU"]} ∧
  entity_ids (bucket populated) Velocity = {["3kryFMT07elszGNU"; "9KRY5cjqxELSZ6dk"]} ∧
  matched_eids_of (bucket populated) (MkSystem [("h", Health); ("p", Position)] [])
    = Py.ok {["3kryFMT07elszGNU"]} ∧
  matched_eids_of (bucket populated)
      (MkSystem [("p", Position); ("h", Health); ("v", Velocity)] [])
    = Py.ok {["3kryFMT07elszGNU"; "9KRY5cjqxELSZ6dk"]}.
Proof. split_and!; by_computation. Qed.

(** On the sample, the entity with [Position] and [Velocity] is not
    matched by the query that requires [Position] and excludes [Velocity];
    the query that only excludes [Velocity] raises [TypeError]. *)
Lemma run_subtracts_excluded_sample :
  index_parses (bucket populated) resting = true ∧
  (∃ m, matched_entities_of (bucket populated) resting = Py.ok m ∧
        m !! "3kryFMT07elszGNU" = None) ∧
  index_parses (bucket populated) not_moving = true ∧
  matched_entities_of (bucket populated) not_moving = inl Py.TypeError.
Proof.
  split; [vm_compute; reflexivity|]. split.
  - destruct (run_subtracts_excluded (bucket populated) resting) as (Hreach & _ & _).
    destruct Hreach as (candidates & all_entities & m & _ & Hm & _ & Habsent);
      [discriminate|vm_compute; reflexivity|].
    exists m. split; [exact Hm|].
    apply (Habsent Velocity); [by left|]. by_computation.
  - split; [vm_compute; reflexivity|].
    destruct (run_subtracts_excluded (bucket populated) not_moving) as (_ & Hnone & _).
    destruct Hnone as [_ Htype]; [reflexivity|].
    apply Htype. vm_compute; reflexivity.
Defined.

(** On the sample, the query without required types raises. *)
Lemma run_without_required_sample :
  ∃ err, run compiled visit not_moving populated = (populated, inl err).
Proof.
  destruct (run_without_required_raises compiled visit not_moving not_moving populated)
    as (err & Hrun & _); [reflexivity..|].
  exists err. exact Hrun.
Defined.

(** On the sample, updating the entity with only its [Position] loaded
    leaves the stored [dx] of its [Velocity] as it was. *)
Lemma update_entity_sample :
  forallb persisted (get_components position_only) = true ∧
  ∃ b', (update_entity text attributes position_only populated).1
          = MkWorld b' (component_classes populated) (random populated) ∧
        b' !! data_blob_name "tW3ahovCJQX4bipw" "dx"
          = bucket populated !! data_blob_name "tW3ahovCJQX4bipw" "dx".
Proof.
  split; [vm_compute; reflexivity|].
  destruct (update_entity_writes_loaded_only text attributes position_only populated)
    as (b' & Hrun & _ & _ & _ & Hunloaded & _); [vm_compute; reflexivity|].
  exists b'. split; [by rewrite Hrun|].
  apply Hunloaded; [vm_compute; reflexivity|].
  intros component Hin Heq.
  apply list_elem_of_singleton in Hin. subst component. discriminate Heq.
Defined.

(** The records of a component that is not loaded are not safe from
    [update_entity] when it shares its identifier with a loaded one.  In the
    store that [add_entity] builds for an entity with a [Position] and a
    [Target] when the draws repeat, both components carry the same
    identifier; updating the entity with only its [Position] loaded succeeds
    and replaces the stored [x] of the [Target] by that of the
    [Position]. *)
Lemma update_entity_overwrites_unloaded :
  bool_decide (bucket SampleRepeat.seeker_added.1 = bucket SampleRepeat.with_seeker)
    = true ∧
  fst <$> SampleRepeat.seeker_added.2 = inr SampleRepeat.saved_seeker ∧
  forallb (persisted (Value := string))
          (get_components SampleRepeat.seeker_position_only) = true ∧
  _unloaded_components SampleRepeat.seeker_position_only = [SampleRepeat.Target] ∧
  bucket SampleRepeat.with_seeker
    !! type_blob_name "Target" "0aaaaaaaaaaaaaaa" "aaaaaaaaaaaaaaaa" = Some empty_blob ∧
  bucket SampleRepeat.with_seeker !! data_blob_name "aaaaaaaaaaaaaaaa" "x"
    = Some (MkBlob "5" "text/plain") ∧
  SampleRepeat.seeker_updated.2 = inr () ∧
  bucket SampleRepeat.seeker_updated.1 !! data_blob_name "aaaaaaaaaaaaaaaa" "x"
    = Some (MkBlob "1" "text/plain").
Proof.
  split; [vm_compute; reflexivity|].
  split; [by_computation|].
  do 2 (split; [reflexivity|]).
  split_and!; by_computation.
Qed.

(** On the sample, deleting an entity that was never saved raises. *)
Lemma delete_entity_unsaved_sample :
  uid mover = None ∧
  delete_entity mover populated
    = (populated, inl (Py.Exception "Entity has not been saved yet")).
Proof.
  split; [reflexivity|]. by apply delete_entity_unsaved.
Defined.





(** A fetched field that the type does not declare is
    among the keyword arguments of the constructor. *)
Lemma undeclared_field_reaches_constructor :
  ¬ (∀ varname,
       varname ∉ declared_fields Position →
       EntityDB.component_values fetched !! varname = None).
Proof.
  intros Hclaim. specialize (Hclaim "z").
  rewrite component_values_lookup in Hclaim.
  assert (Hz : "z" ∉ declared_fields Position) by by_computation.
  specialize (Hclaim Hz). rewrite decide_False in Hclaim by by_computation.
  assert (Hfetched : fetched !! "z" = Some "3") by by_computation.
  rewrite Hfetched in Hclaim. discriminate Hclaim.
Qed.

(** * Further properties *)

(** ** Listings of the bucket *)

Lemma elem_of_search_blobs b prefix name :
  name ∈ _search_blobs b prefix ↔
  is_Some (b !! name) ∧ listed prefix BLOBNAME_DELIMITER name = true.
Proof.
  unfold _search_blobs, list_blobs.
  rewrite list_elem_of_filter, list_elem_of_fmap. split.
  - intros [Hl ([n blob] & -> & Hin%elem_of_map_to_list)].
    split; [by eexists|done].
  - intros [[blob Hb] Hl]. split; [done|].
    exists (name, blob). split; [done|]. by apply elem_of_map_to_list.
Qed.

Lemma elem_of_eids_of_names eid names :
  eid ∈ eids_of_names names ↔
  ∃ name cid, name ∈ names ∧ parse_blob_name name = Py.ok (eid, cid).
Proof.
  unfold eids_of_names. rewrite elem_of_list_to_set, list_elem_of_omap. split.
  - intros (name & Hin & Hp).
    destruct (parse_blob_name name) as [|[e c]] eqn:Hparse; [done|].
    injection Hp as ->. by exists name, c.
  - intros (name & cid & Hin & Hp). exists name. split; [done|]. by rewrite Hp.
Qed.

(** ** Bounds on the matched set of [run] *)

Lemma include_step_candidates b acc param acc' :
  include_step b acc param = Py.ok acc' →
  acc'.1 = Some (if set_truthy acc.1
                 then default ∅ acc.1 ∩ entity_ids b param.2
                 else entity_ids b param.2).
Proof.
  destruct acc as [matched all_entities]. intros Hstep.
  unfold include_step in Hstep.
  apply bind_ok_inv in Hstep as ([found all'] & Hscan & Hres).
  pose proof (scan_included_loop_ok _ _ _ _ Hscan) as Hp.
  destruct (scan_included_loop (__name__ param.2) _ ∅ all_entities Hp)
    as (all'' & Hscan' & _).
  rewrite Hscan' in Hscan. injection Hscan as <- <-.
  cbn [fst]. unfold entity_ids.
  destruct (set_truthy matched); injection Hres as <-; cbn [fst];
    f_equal; set_solver.
Qed.

Lemma set_truthy_inhabited (candidates : gset string) :
  set_truthy (Some candidates) = true → candidates ≠ ∅.
Proof.
  unfold set_truthy. intros H%negb_true_iff. by apply bool_decide_eq_false in H.
Qed.

Lemma include_step_keeps b eid acc param acc' :
  include_step b acc param = Py.ok acc' →
  eid ∈ entity_ids b param.2 →
  (∀ c, acc.1 = Some c → c = ∅ ∨ eid ∈ c) →
  ∀ c, acc'.1 = Some c → eid ∈ c.
Proof.
  intros Hstep Hin Hacc c Hc.
  rewrite (include_step_candidates _ _ _ _ Hstep) in Hc. injection Hc as <-.
  destruct (set_truthy acc.1) eqn:Htruthy; [|done].
  destruct acc.1 as [c|]; [|done].
  apply set_truthy_inhabited in Htruthy.
  destruct (Hacc c eq_refl) as [->|Hc]; [done|]. cbn [default]. set_solver.
Qed.

Lemma include_loop_keeps b eid params acc acc' :
  Py.for_each params acc (include_step b) = Py.ok acc' →
  (∀ component, component ∈ params.*2 → eid ∈ entity_ids b component) →
  (∀ c, acc.1 = Some c → eid ∈ c) →
  ∀ c, acc'.1 = Some c → eid ∈ c.
Proof.
  revert acc. induction params as [|param params IH]; intros acc Hloop Hall Hacc.
  - by injection Hloop as <-.
  - rewrite for_each_cons in Hloop.
    apply bind_ok_inv in Hloop as (acc1 & Hstep & Hloop).
    rewrite fmap_cons in Hall.
    apply (IH acc1 Hloop); [intros T HT; apply Hall; by right|].
    eapply include_step_keeps; [done|apply Hall; by left|].
    intros c Hc. right. by apply Hacc.
Qed.

Lemma include_loop_last b params acc acc' component :
  Py.for_each params acc (include_step b) = Py.ok acc' →
  last params.*2 = Some component →
  ∃ c, acc'.1 = Some c ∧ c ⊆ entity_ids b component.
Proof.
  revert acc. induction params as [|param params IH]; intros acc Hloop Hlast; [done|].
  rewrite for_each_cons in Hloop.
  apply bind_ok_inv in Hloop as (acc1 & Hstep & Hloop).
  destruct params as [|param' params].
  - injection Hloop as <-. injection Hlast as <-.
    rewrite (include_step_candidates _ _ _ _ Hstep).
    eexists. split; [done|]. destruct (set_truthy acc.1); set_solver.
  - by apply (IH acc1).
Qed.

Lemma matched_entities_complete (b : gmap string Blob) (system : SystemWrapper) :
  include_components system ≠ [] →
  index_parses b system = true →
  ∃ matched_entities,
    matched_entities_of b system = Py.ok matched_entities ∧
    ∀ eid,
      (∀ component, component ∈ (include_components system).*2 →
                    eid ∈ entity_ids b component) →
      (∀ component, component ∈ exclude_components system →
                    eid ∉ entity_ids b component) →
      eid ∈ dom matched_entities.
Proof.
  intros Hne Hp.
  destruct (matched_entities_of_spec b system Hne Hp)
    as (candidates & all_entities & m & Hloop & Hm & Hdom & _).
  exists m. split; [done|]. intros eid Hreq Hexc. rewrite Hdom.
  apply elem_of_difference. split.
  - destruct (include_components system) as [|param params] eqn:Hinc; [done|].
    rewrite for_each_cons in Hloop.
    apply bind_ok_inv in Hloop as (acc1 & Hstep & Hloop).
    rewrite fmap_cons in Hreq.
    apply (include_loop_keeps b eid params acc1 _ Hloop); [| |done].
    + intros T HT. apply Hreq. by right.
    + eapply include_step_keeps; [done|apply Hreq; by left|done].
  - intros (ids & (T & -> & HT)%list_elem_of_fmap & Hin)%elem_of_union_list.
    by apply (Hexc T).
Qed.

(** X1: when the query has a required type and the listed names unpack,
    [run] matches every entity that is in the entity-id set of every
    required type and of no excluded type: no qualifying entity is missed. *)
Theorem run_matches_every_qualifying_entity (b : gmap string Blob)
    (system : SystemWrapper) :
  include_components system ≠ [] →
  index_parses b system = true →
  ∃ matched_entities,
    matched_entities_of b system = Py.ok matched_entities ∧
    ∀ eid,
      (∀ component, component ∈ (include_components system).*2 →
                    eid ∈ entity_ids b component) →
      (∀ component, component ∈ exclude_components system →
                    eid ∉ entity_ids b component) →
      eid ∈ dom matched_entities.
Proof. apply matched_entities_complete. Qed.

(** X2: every entity that [run] matches is in the entity-id set of the
    last required type of the query. *)
Theorem run_matches_within_last_required (b : gmap string Blob)
    (system : SystemWrapper) (component : Class) :
  last (include_components system).*2 = Some component →
  index_parses b system = true →
  ∃ matched_entities,
    matched_entities_of b system = Py.ok matched_entities ∧
    dom matched_entities ⊆ entity_ids b component.
Proof.
  intros Hlast Hp.
  assert (Hne : include_components system ≠ []).
  { intros Hnil. by rewrite Hnil in Hlast. }
  destruct (matched_entities_of_spec b system Hne Hp)
    as (candidates & all_entities & m & Hloop & Hm & Hdom & _).
  exists m. split; [done|].
  destruct (include_loop_last b _ _ _ component Hloop Hlast) as (c & Hc & Hsub).
  injection Hc as <-. rewrite Hdom. set_solver.
Qed.

Lemma elem_of_foldl_intersection b eid candidates types :
  eid ∈ foldl (λ acc component, acc ∩ entity_ids b component) candidates types ↔
  eid ∈ candidates ∧ ∀ component, component ∈ types → eid ∈ entity_ids b component.
Proof.
  revert candidates. induction types as [|T types IH]; intros candidates; simpl.
  - split; [intros ?; split; [done|]; by intros ? ?%elem_of_nil|by intros [? _]].
  - rewrite IH, elem_of_intersection. split.
    + intros [[Hc HT] Hall]. split; [done|].
      intros T' [->|HT']%elem_of_cons; [done|by apply Hall].
    + intros [Hc Hall]. split; [split; [done|apply Hall; by left]|].
      intros T' HT'. apply Hall. by right.
Qed.

(** X3: when no running intersection is empty before the last required
    type, [run] matches exactly the entities that are in the entity-id set
    of every required type and of no excluded type. *)
Theorem run_exact_when_inhabited (b : gmap string Blob) (system : SystemWrapper)
    (param : string * Class) (params : list (string * Class)) :
  include_components system = param :: params →
  index_parses b system = true →
  stays_inhabited b (entity_ids b param.2) params.*2 →
  ∃ matched_entities,
    matched_entities_of b system = Py.ok matched_entities ∧
    ∀ eid,
      eid ∈ dom matched_entities ↔
      (∀ component, component ∈ (include_components system).*2 →
                    eid ∈ entity_ids b component) ∧
      (∀ component, component ∈ exclude_components system →
                    eid ∉ entity_ids b component).
Proof.
  intros Hinc Hp Hstay.
  assert (Hne : include_components system ≠ []) by (by rewrite Hinc).
  destruct (matched_entities_of_spec b system Hne Hp)
    as (candidates & all_entities & m & Hloop & Hm & Hdom & _).
  exists m. split; [done|]. intros eid.
  unfold index_parses in Hp. rewrite forallb_app, Hinc, fmap_cons in Hp.
  apply andb_prop in Hp as [Hpinc _]. cbn [forallb] in Hpinc.
  apply andb_prop in Hpinc as [Hp1 Hps].
  rewrite Hinc, for_each_cons in Hloop.
  destruct (include_step_spec b (None, ∅) param) as (c & all' & Hstep & Hknown & Hc);
    [done..|].
  cbn [fst set_truthy] in Hc. subst c.
  rewrite Hstep, bind_ok in Hloop.
  destruct (include_loop_intersection b params _ all' Hknown Hps Hstay) as (all'' & Hrest).
  rewrite Hrest in Hloop. injection Hloop as <- _.
  rewrite Hdom, elem_of_difference, elem_of_foldl_intersection, Hinc, fmap_cons.
  split.
  - intros [[H1 Hall] Hexc]. split.
    + intros T [->|HT]%elem_of_cons; [done|by apply Hall].
    + intros T HT Hin. apply Hexc, elem_of_union_list.
      exists (entity_ids b T). split; [by apply list_elem_of_fmap_2|done].
  - intros [Hall Hexc]. split; [split|].
    + apply Hall. by left.
    + intros T HT. apply Hall. by right.
    + intros (ids & (T & -> & HT)%list_elem_of_fmap & Hin)%elem_of_union_list.
      by apply (Hexc T).
Qed.

(** ** The component identifiers that [run] hands on *)

Lemma scan_included_indexed b types component names found
    (all_entities : entity_cids) acc' :
  component ∈ types →
  (∀ name, name ∈ names →
           name ∈ _search_blobs b (type_prefix (__name__ component))) →
  (∀ eid cids, all_entities !! eid = Some cids → indexed b types eid cids) →
  Py.for_each names (found, all_entities) (scan_included (__name__ component))
    = Py.ok acc' →
  ∀ eid cids, acc'.2 !! eid = Some cids → indexed b types eid cids.
Proof.
  intros Htype. revert found all_entities.
  induction names as [|name names IH]; intros found all_entities Hnames Hinv Hloop.
  - by injection Hloop as <-.
  - rewrite for_each_cons in Hloop.
    apply bind_ok_inv in Hloop as (acc1 & Hstep & Hloop).
    destruct (parse_blob_name name) as [err|[eid0 cid0]] eqn:Hparse.
    { unfold scan_included in Hstep. by rewrite Hparse in Hstep. }
    rewrite (scan_included_parsed _ _ _ _ _ _ Hparse) in Hstep.
    injection Hstep as <-.
    eapply IH; [intros n Hn; apply Hnames; by right| |exact Hloop].
    assert (Hnew : ∀ cids0 : gmap string string,
              (∀ name' cid', cids0 !! name' = Some cid' →
                 name' = __name__ component ∧ cid' = cid0 ∨
                 ∃ old, all_entities !! eid0 = Some old ∧ old !! name' = Some cid') →
              indexed b types eid0 cids0).
    { intros cids0 Hfrom name' cid' Hl.
      destruct (Hfrom _ _ Hl) as [[-> ->]|(old & Hold & Hl')].
      - exists component, name.
        assert (Hlisted : name ∈ _search_blobs b (type_prefix (__name__ component)))
          by (apply Hnames; by left).
        split_and!; [done..| |done].
        by apply elem_of_search_blobs in Hlisted as [? _].
      - by apply (Hinv _ _ Hold). }
    intros eid cids Hl. destruct (decide (eid = eid0)) as [->|Hne].
    + destruct (all_entities !! eid0) as [old|] eqn:Hold.
      * rewrite lookup_insert_eq in Hl. injection Hl as <-.
        apply Hnew. intros name' cid' Hl'.
        destruct (decide (name' = __name__ component)) as [->|Hn].
        -- rewrite lookup_insert_eq in Hl'. injection Hl' as <-. by left.
        -- rewrite lookup_insert_ne in Hl' by done. right. by exists old.
      * rewrite lookup_insert_eq in Hl. injection Hl as <-.
        apply Hnew. intros name' cid' [-> ->]%lookup_singleton_Some. by left.
    + destruct (all_entities !! eid0);
        rewrite lookup_insert_ne in Hl by done; by apply (Hinv _ _ Hl).
Qed.

(** An entity is known with a component of the given name. *)
Lemma scan_included_present component_name names found
    (all_entities : entity_cids) acc' :
  Py.for_each names (found, all_entities) (scan_included component_name)
    = Py.ok acc' →
  (∀ eid, eid ∈ eids_of_names names →
     ∃ cids, acc'.2 !! eid = Some cids ∧ is_Some (cids !! component_name)) ∧
  (∀ eid cids name, all_entities !! eid = Some cids → is_Some (cids !! name) →
     ∃ cids', acc'.2 !! eid = Some cids' ∧ is_Some (cids' !! name)).
Proof.
  revert found all_entities.
  induction names as [|name names IH]; intros found all_entities Hloop.
  - injection Hloop as <-. split.
    + intros eid Hin. unfold eids_of_names in Hin. simpl in Hin. set_solver.
    + intros eid cids name Hl Hk. by exists cids.
  - rewrite for_each_cons in Hloop.
    apply bind_ok_inv in Hloop as (acc1 & Hstep & Hloop).
    destruct (parse_blob_name name) as [err|[eid0 cid0]] eqn:Hparse.
    { unfold scan_included in Hstep. by rewrite Hparse in Hstep. }
    rewrite (scan_included_parsed _ _ _ _ _ _ Hparse) in Hstep.
    injection Hstep as <-.
    destruct (IH _ _ Hloop) as [Hfound Hkept].
    set (all1 := match all_entities !! eid0 with
                 | Some cids => <[eid0 := <[component_name := cid0]> cids]> all_entities
                 | None => <[eid0 := {[component_name := cid0]}]> all_entities
                 end) in *.
    assert (Hhere : ∃ cids1, all1 !! eid0 = Some cids1 ∧
                             is_Some (cids1 !! component_name)).
    { unfold all1. destruct (all_entities !! eid0) as [old|]; eexists;
        (split; [apply lookup_insert_eq|]).
      - rewrite lookup_insert_eq. by eexists.
      - rewrite lookup_singleton_eq. by eexists. }
    assert (Hstep : ∀ eid cids name', all_entities !! eid = Some cids →
              is_Some (cids !! name') →
              ∃ cids1, all1 !! eid = Some cids1 ∧ is_Some (cids1 !! name')).
    { intros eid cids name' Hl Hk. unfold all1.
      destruct (decide (eid = eid0)) as [->|Hne].
      - rewrite Hl. eexists. split; [apply lookup_insert_eq|].
        destruct (decide (name' = component_name)) as [->|Hn].
        + rewrite lookup_insert_eq. by eexists.
        + by rewrite lookup_insert_ne.
      - exists cids. split; [|done].
        destruct (all_entities !! eid0); by rewrite lookup_insert_ne. }
    split.
    + intros eid Hin. rewrite eids_of_names_cons, Hparse in Hin.
      apply elem_of_union in Hin as [->%elem_of_singleton|Hin]; [|by apply Hfound].
      destruct Hhere as (cids1 & Hl1 & Hk1). by apply (Hkept _ _ _ Hl1).
    + intros eid cids name' Hl Hk.
      destruct (Hstep _ _ _ Hl Hk) as (cids1 & Hl1 & Hk1). by apply (Hkept _ _ _ Hl1).
Qed.

Lemma include_loop_indexed b types params acc acc' :
  (∀ component, component ∈ params.*2 → component ∈ types) →
  (∀ eid cids, acc.2 !! eid = Some cids → indexed b types eid cids) →
  Py.for_each params acc (include_step b) = Py.ok acc' →
  ∀ eid cids, acc'.2 !! eid = Some cids → indexed b types eid cids.
Proof.
  revert acc. induction params as [|param params IH]; intros acc Htypes Hinv Hloop.
  - by injection Hloop as <-.
  - rewrite for_each_cons in Hloop.
    apply bind_ok_inv in Hloop as (acc1 & Hstep & Hloop).
    rewrite fmap_cons in Htypes.
    apply (IH acc1); [intros T HT; apply Htypes; by right| |done].
    destruct acc as [matched all_entities]. unfold include_step in Hstep.
    apply bind_ok_inv in Hstep as ([found all'] & Hscan & Hres).
    assert (Hall' : acc1.2 = all').
    { by destruct (set_truthy matched); injection Hres as <-. }
    rewrite Hall'.
    apply (scan_included_indexed b types param.2 _ _ _ _
             (Htypes _ (list_elem_of_here _ _)) (λ _ H, H) Hinv Hscan).
Qed.

Lemma include_loop_present b params acc acc' :
  Py.for_each params acc (include_step b) = Py.ok acc' →
  (∀ component eid, component ∈ params.*2 → eid ∈ entity_ids b component →
     ∃ cids, acc'.2 !! eid = Some cids ∧ is_Some (cids !! __name__ component)) ∧
  (∀ eid cids name, acc.2 !! eid = Some cids → is_Some (cids !! name) →
     ∃ cids', acc'.2 !! eid = Some cids' ∧ is_Some (cids' !! name)).
Proof.
  revert acc. induction params as [|param params IH]; intros acc Hloop.
  - injection Hloop as <-. split; [by intros ?? ?%elem_of_nil|].
    intros eid cids name Hl Hk. by exists cids.
  - rewrite for_each_cons in Hloop.
    apply bind_ok_inv in Hloop as (acc1 & Hstep & Hloop).
    destruct (IH acc1 Hloop) as [Hfound Hkept].
    destruct acc as [matched all_entities]. unfold include_step in Hstep.
    apply bind_ok_inv in Hstep as ([found all'] & Hscan & Hres).
    assert (Hall' : acc1.2 = all').
    { by destruct (set_truthy matched); injection Hres as <-. }
    destruct (scan_included_present _ _ _ _ _ Hscan) as [Hfound1 Hkept1].
    cbn [snd] in *. rewrite Hall' in Hkept. split.
    + intros T eid [->|HT]%elem_of_cons Hin; [|by apply Hfound].
      destruct (Hfound1 eid Hin) as (cids1 & Hl1 & Hk1). by apply (Hkept _ _ _ Hl1).
    + intros eid cids name Hl Hk.
      destruct (Hkept1 _ _ _ Hl Hk) as (cids1 & Hl1 & Hk1). by apply (Hkept _ _ _ Hl1).
Qed.

Lemma collect_loop_lookup (all_entities : entity_cids) eids (acc m : entity_cids)
    eid cids :
  Py.for_each eids acc
    (λ matched_entities eid,
       match all_entities !! eid with
       | Some cids => mret (<[eid := cids]> matched_entities)
       | None => Py.raise (Py.KeyError eid)
       end) = Py.ok m →
  m !! eid = Some cids →
  acc !! eid = Some cids ∨ all_entities !! eid = Some cids.
Proof.
  revert acc. induction eids as [|e eids IH]; intros acc Hloop Hl.
  - injection Hloop as <-. by left.
  - rewrite for_each_cons in Hloop.
    apply bind_ok_inv in Hloop as (acc1 & Hstep & Hloop). cbv beta in Hstep.
    destruct (all_entities !! e) as [cids0|] eqn:He; [|done].
    injection Hstep as <-.
    destruct (IH _ Hloop Hl) as [Hacc|Hall]; [|by right].
    destruct (decide (e = eid)) as [->|Hne].
    + rewrite lookup_insert_eq in Hacc. injection Hacc as <-. by right.
    + rewrite lookup_insert_ne in Hacc by done. by left.
Qed.

(** X4: for every entity that [run] matches, the mapping from component
    names to component identifiers that it hands to [_run_on_entities] has
    an entry for each required type that the type index lists for the
    entity, and every entry names a required type and carries the component
    identifier of a blob of that type's index that belongs to the entity. *)
Theorem run_hands_on_indexed_components (b : gmap string Blob)
    (system : SystemWrapper) :
  include_components system ≠ [] →
  index_parses b system = true →
  ∃ matched_entities,
    matched_entities_of b system = Py.ok matched_entities ∧
    ∀ eid cids,
      matched_entities !! eid = Some cids →
      indexed b (include_components system).*2 eid cids ∧
      ∀ component,
        component ∈ (include_components system).*2 →
        eid ∈ entity_ids b component →
        is_Some (cids !! __name__ component).
Proof.
  intros Hne Hp.
  destruct (matched_entities_of_spec b system Hne Hp)
    as (candidates & all_entities & m & Hloop & Hm & _).
  exists m. split; [done|]. intros eid cids Hl.
  assert (Hall : all_entities !! eid = Some cids).
  { unfold index_parses in Hp. rewrite forallb_app in Hp.
    apply andb_prop in Hp as [_ Hexc].
    unfold matched_entities_of in Hm.
    rewrite Hloop, bind_ok, exclude_loop_spec, bind_ok in Hm by done.
    unfold collect_matched in Hm.
    destruct (collect_loop_lookup _ _ _ _ _ _ Hm Hl) as [Hempty|Hall]; [|done].
    by rewrite lookup_empty in Hempty. }
  split.
  - eapply (include_loop_indexed b _ _ (None, ∅));
      [by intros ??| |exact Hloop|exact Hall].
    intros eid0 cids0 Hempty. cbn [snd] in Hempty.
    by rewrite lookup_empty in Hempty.
  - intros T HT Hin.
    destruct (include_loop_present b _ _ _ Hloop) as [Hfound _].
    destruct (Hfound T eid HT Hin) as (cids' & Hl' & Hk). cbn [snd] in Hl'.
    rewrite Hall in Hl'. by injection Hl' as <-.
Qed.

(** ** Sequences of uploads *)

Lemma store_all_lookup writes b name :
  store_all writes b !! name =
  match last_write name writes with
  | Some blob => Some blob
  | None => b !! name
  end.
Proof.
  revert b. induction writes as [|[n blob] writes IH]; intros b; [done|].
  cbn [store_all foldl last_write fst snd]. fold (store_all writes (<[n := blob]> b)).
  rewrite IH. destruct (last_write name writes); [done|].
  case_decide as Hn; [subst; apply lookup_insert_eq|by apply lookup_insert_ne].
Qed.

Lemma last_write_elem name writes blob :
  last_write name writes = Some blob → (name, blob) ∈ writes.
Proof.
  induction writes as [|[n bl] writes IH]; [done|]. cbn [last_write fst snd].
  destruct (last_write name writes) as [blob'|].
  - intros [= ->]. right. by apply IH.
  - case_decide as Hn; [|done]. intros [= ->]. subst. by left.
Qed.

Lemma last_write_filter (P : string → Prop) `{!∀ name, Decision (P name)}
    name (writes : list (string * Blob)) :
  P name →
  last_write name (filter (λ write, P write.1) writes) = last_write name writes.
Proof.
  intros HP. induction writes as [|[n bl] writes IH]; [done|].
  destruct (decide (P n)) as [Hn|Hn].
  - rewrite filter_cons_True by done. cbn [last_write fst snd]. by rewrite IH.
  - rewrite filter_cons_False by done. rewrite IH. cbn [last_write fst snd].
    destruct (last_write name writes); [done|].
    rewrite decide_False; [done|]. by intros ->.
Qed.

Lemma store_all_absorb writes (b : gmap string Blob) :
  (∀ name blob, last_write name writes = Some blob → b !! name = Some blob) →
  store_all writes b = b.
Proof.
  intros Habs. apply map_eq. intros name. rewrite store_all_lookup.
  destruct (last_write name writes) as [blob|] eqn:Hlast; [|done].
  symmetry. by apply Habs.
Qed.

Lemma store_all_idempotent writes b :
  store_all writes (store_all writes b) = store_all writes b.
Proof.
  apply store_all_absorb. intros name blob Hlast.
  by rewrite store_all_lookup, Hlast.
Qed.

Lemma store_all_is_Some writes b name :
  is_Some (store_all writes b !! name) ↔ is_Some (b !! name) ∨ name ∈ writes.*1.
Proof.
  split.
  - intros Hsome. destruct (decide (name ∈ writes.*1)) as [Hin|Hnin]; [by right|].
    left. by rewrite store_all_lookup_other in Hsome.
  - intros [Hsome|Hin].
    + rewrite store_all_lookup. by destruct (last_write name writes).
    + destruct (store_all_lookup_written writes b name Hin) as (blob & _ & ->).
      by eexists.
Qed.

(** ** Identifier namespaces *)

(** X5: an entity identifier starts with a digit and a component
    identifier starts with a letter, so no identifier drawn for an entity
    equals one drawn for a component. *)
Theorem entity_and_component_identifiers_differ (g1 g2 : Py.rng) :
  (∃ c rest, (_random_eid g1).1 = String c rest ∧ c ∈ Py.digits) ∧
  (∃ c rest, (_random_cid g2).1 = String c rest ∧ c ∈ Py.ascii_letters) ∧
  (_random_eid g1).1 ≠ (_random_cid g2).1.
Proof.
  assert (He : ∃ c rest, (_random_eid g1).1 = String c rest ∧ c ∈ Py.digits).
  { unfold _random_eid. destruct (Py.choice Py.digits g1) as [c g] eqn:Hc.
    destruct (_random_id _ g) as [s g']. exists c, s. split; [done|].
    by eapply choice_elem'. }
  assert (Hc : ∃ c rest, (_random_cid g2).1 = String c rest ∧ c ∈ Py.ascii_letters).
  { unfold _random_cid. destruct (Py.choice Py.ascii_letters g2) as [c g] eqn:Hc.
    destruct (_random_id _ g) as [s g']. exists c, s. split; [done|].
    by eapply choice_elem'. }
  split_and!; [done..|].
  destruct He as (d & rest & -> & Hd), Hc as (l & rest' & -> & Hl).
  intros [= -> _].
  assert (Hdisjoint : Forall (λ c, c ∉ Py.ascii_letters) Py.digits)
    by (apply (bool_decide_unpack _); vm_compute; exact I).
  by apply (proj1 (Forall_forall _ _) Hdisjoint l).
Qed.

(** ** Names of the index blobs *)

Lemma strip_prefix_app p r : Py.strip_prefix p (p +:+ r) = Some r.
Proof. induction p as [|c p IH]; simpl; [by destruct r|]. by rewrite decide_True. Qed.

Lemma strip_prefix_Some p s r : Py.strip_prefix p s = Some r → s = p +:+ r.
Proof.
  revert s. induction p as [|c p IH]; intros s; simpl.
  - by intros [= ->].
  - destruct s as [|c' s]; [done|]. case_decide; [|done]. subst.
    intros Hr. by rewrite (IH _ Hr).
Qed.

Lemma index_blob_names_injective_lemma (component_name component_name' : string)
    (eid eid' cid cid' : string) :
  Py.occurs "/" component_name = false → Py.occurs "/" component_name' = false →
  Py.occurs "-" component_name = false → Py.occurs "-" component_name' = false →
  is_identifier eid = true → is_identifier eid' = true →
  (type_blob_name component_name eid cid = type_blob_name component_name' eid' cid' →
   component_name = component_name' ∧ eid = eid' ∧ cid = cid') ∧
  (forward_blob_name eid component_name cid = forward_blob_name eid' component_name' cid' →
   component_name = component_name' ∧ eid = eid' ∧ cid = cid').
Proof.
  intros Hn Hn' Hd Hd' He He'.
  pose proof (identifier_no_slash _ He). pose proof (identifier_no_slash _ He').
  pose proof (identifier_no_dash _ He). pose proof (identifier_no_dash _ He').
  split; intros Heq.
  - unfold type_blob_name in Heq. simpl in Heq. injection Heq as Heq.
    apply (append_sep_inj "/") in Heq as [-> Heq]; [|done..].
    apply (append_sep_inj "-") in Heq as [-> ->]; done.
  - unfold forward_blob_name in Heq. simpl in Heq. injection Heq as Heq.
    apply (append_sep_inj "/") in Heq as [-> Heq]; [|done..].
    apply (append_sep_inj "-") in Heq as [-> ->]; done.
Qed.

(** X6: the blob names of the two indexes identify their triple: for class
    names without ['/'] and ['-'] and identifiers of letters and digits, two
    type-index names, or two forward-index names, are equal only if the
    entity, the class name and the component identifier are. *)
Theorem index_blob_names_injective (component_name component_name' : string)
    (eid eid' cid cid' : string) :
  Py.occurs "/" component_name = false → Py.occurs "/" component_name' = false →
  Py.occurs "-" component_name = false → Py.occurs "-" component_name' = false →
  is_identifier eid = true → is_identifier eid' = true →
  (type_blob_name component_name eid cid = type_blob_name component_name' eid' cid' →
   component_name = component_name' ∧ eid = eid' ∧ cid = cid') ∧
  (forward_blob_name eid component_name cid = forward_blob_name eid' component_name' cid' →
   component_name = component_name' ∧ eid = eid' ∧ cid = cid').
Proof. apply index_blob_names_injective_lemma. Qed.

(** ** Composing the lifecycle operations *)

Lemma forward_name_not_data eid component_name cid :
  ¬ is_data_name (forward_blob_name eid component_name cid).
Proof. by intros [? ?]. Qed.

Lemma type_name_not_data component_name eid cid :
  ¬ is_data_name (type_blob_name component_name eid cid).
Proof. by intros [? ?]. Qed.

Lemma data_name_is_data cid varname : is_data_name (data_blob_name cid varname).
Proof. by eexists. Qed.

Section LifecycleComposition.
Context {Value : Type}.
Variable serialize : Value → string * string.
Variable get_variables_of : Component Value → list (string * Value).

Local Abbreviation writes_of := (field_writes serialize get_variables_of).
Local Abbreviation add_entity := (add_entity serialize get_variables_of).
Local Abbreviation update_entity := (update_entity serialize get_variables_of).

Lemma update_entity_run (entity : Entity Value) (w : World) :
  Forall (λ component, is_Some (_uid component)) (get_components entity) →
  update_entity entity w =
  (MkWorld (store_all (concat (writes_of <$> get_components entity)) (bucket w))
           (component_classes w) (random w),
   inr ()).
Proof.
  intros Hall.
  destruct (update_loop_run serialize get_variables_of _ w Hall) as (units & Hrun).
  unfold EntityDB_GCS.update_entity. by rewrite store_bind_run, Hrun.
Qed.

(** X7: [update_entity] is idempotent: on an entity whose loaded components
    all carry an identifier, a second update right after the first succeeds
    and leaves the store exactly as the first left it. *)
Theorem update_entity_idempotent (entity : Entity Value) (w : World) :
  Forall (λ component, is_Some (_uid component)) (get_components entity) →
  ∃ w1, update_entity entity w = (w1, inr ()) ∧
        update_entity entity w1 = (w1, inr ()).
Proof.
  intros Hall. eexists. split; [by apply update_entity_run|].
  rewrite update_entity_run by done. cbn [bucket component_classes random].
  by rewrite store_all_idempotent.
Qed.

Lemma filter_index_writes eid (component : Component Value) :
  filter (λ write, is_data_name write.1) (index_writes eid component) = [].
Proof.
  unfold index_writes. destruct (_uid component); [|done].
  rewrite filter_cons_False by apply forward_name_not_data.
  by rewrite filter_cons_False by apply type_name_not_data.
Qed.

Lemma filter_field_writes (component : Component Value) :
  filter (λ write, is_data_name write.1) (writes_of component) = writes_of component.
Proof.
  unfold field_writes. destruct (_uid component) as [cid|]; [|done].
  induction (get_variables_of component) as [|[varname data] vars IH]; [done|].
  rewrite fmap_cons, filter_cons_True by apply data_name_is_data. by rewrite IH.
Qed.

Lemma filter_add_writes eid (components : list (Component Value)) :
  filter (λ write, is_data_name write.1)
         (concat ((λ c, index_writes eid c ++ writes_of c) <$> components))
  = concat (writes_of <$> components).
Proof.
  induction components as [|component components IH]; [done|].
  rewrite !fmap_cons. cbn [concat].
  by rewrite !filter_app, filter_index_writes, filter_field_writes, IH.
Qed.

(** X8: updating an entity right after [add_entity] has saved it changes
    nothing: the update succeeds and the store is the one that [add_entity]
    left. *)
Theorem update_after_add_changes_nothing (entity : Entity Value) (w : World) :
  ∃ w' entity' eid,
    add_entity entity w = (w', inr (entity', eid)) ∧
    update_entity entity' w' = (w', inr ()).
Proof.
  destruct (add_entity_run serialize get_variables_of entity w)
    as (w' & components' & Hrun & Hall & Hb).
  eexists w', _, _. split; [exact Hrun|].
  rewrite update_entity_run
    by apply (added_from_identified _ _ Hall).
  cbn [get_components _components]. destruct w' as [b' classes' g'].
  cbn [bucket component_classes random] in *. f_equal. f_equal.
  apply store_all_absorb. intros name blob Hlast.
  pose proof (last_write_elem _ _ _ Hlast) as Helem.
  rewrite <- (filter_add_writes (_random_eid (random w)).1) in Hlast, Helem.
  apply list_elem_of_filter in Helem as [Hdata _]. cbn [fst] in Hdata.
  rewrite (last_write_filter is_data_name) in Hlast by done.
  by rewrite Hb, store_all_lookup, Hlast.
Qed.

Lemma add_writes_names eid name (components : list (Component Value)) :
  name ∈ (concat ((λ c, index_writes eid c ++ writes_of c) <$> components)).*1 ↔
  ∃ component cid,
    component ∈ components ∧ _uid component = Some cid ∧
    (name = forward_blob_name eid (__name__ (class_of component)) cid ∨
     name = type_blob_name (__name__ (class_of component)) eid cid ∨
     ∃ varname data, (varname, data) ∈ get_variables_of component ∧
                     name = data_blob_name cid varname).
Proof.
  rewrite list_elem_of_fmap. split.
  - intros ([n blob] & -> & Hin). cbn [fst].
    apply elem_of_concat in Hin as (l & (c & -> & Hc)%list_elem_of_fmap & Hin).
    apply elem_of_app in Hin as [Hin|Hin].
    + unfold index_writes in Hin.
      destruct (_uid c) as [cid|] eqn:Hcid; [|by apply elem_of_nil in Hin].
      exists c, cid. split_and!; [done..|].
      apply elem_of_cons in Hin as [[= -> _]|Hin]; [by left|].
      apply list_elem_of_singleton in Hin as [= -> _]. right. by left.
    + unfold field_writes in Hin.
      destruct (_uid c) as [cid|] eqn:Hcid; [|by apply elem_of_nil in Hin].
      apply list_elem_of_fmap in Hin as ([varname data] & [= -> _] & Hvar).
      exists c, cid. split_and!; [done..|]. right. right. by exists varname, data.
  - intros (c & cid & Hc & Hcid & Hname).
    assert (Hsub : ∀ write, write ∈ index_writes eid c ++ writes_of c →
              write ∈ concat ((λ c, index_writes eid c ++ writes_of c) <$> components)).
    { intros write Hw. apply elem_of_concat. eexists. split; [|exact Hw].
      by apply (list_elem_of_fmap_2 (λ c, index_writes eid c ++ writes_of c)). }
    unfold index_writes, field_writes in Hsub. rewrite Hcid in Hsub.
    destruct Hname as [->|[->|(varname & data & Hvar & ->)]].
    + eexists (_, _). split; [done|]. apply Hsub. by left.
    + eexists (_, _). split; [done|]. apply Hsub. right. by left.
    + eexists (_, _). split; [done|]. apply Hsub.
      do 2 right. apply list_elem_of_fmap. by exists (varname, data).
Qed.

(** X9: [add_entity] deletes no blob and touches only the blobs of the
    entity it adds: every blob name of the old bucket is still present, and
    a blob that differs from the old one is the forward-index blob, the
    type-index blob or a field blob of one of the added components. *)
Theorem add_entity_touches_own_blobs_only (entity : Entity Value) (w : World) :
  ∃ w' entity' eid,
    add_entity entity w = (w', inr (entity', eid)) ∧
    (∀ name, is_Some (bucket w !! name) → is_Some (bucket w' !! name)) ∧
    ∀ name,
      bucket w' !! name ≠ bucket w !! name →
      ∃ component cid,
        component ∈ get_components entity' ∧ _uid component = Some cid ∧
        (name = forward_blob_name eid (__name__ (class_of component)) cid ∨
         name = type_blob_name (__name__ (class_of component)) eid cid ∨
         ∃ varname data, (varname, data) ∈ get_variables_of component ∧
                         name = data_blob_name cid varname).
Proof.
  destruct (add_entity_run serialize get_variables_of entity w)
    as (w' & components' & Hrun & Hall & Hb).
  eexists w', _, _. split; [exact Hrun|]. rewrite Hb. split.
  - intros name Hsome. apply store_all_is_Some. by left.
  - intros name Hchanged. cbn [get_components _components].
    apply add_writes_names.
    destruct (decide (name ∈ (concat ((λ c, index_writes (_random_eid (random w)).1 c
                                               ++ writes_of c) <$> components')).*1))
      as [Hin|Hnin]; [done|].
    by rewrite store_all_lookup_other in Hchanged.
Qed.

End LifecycleComposition.

(** ** The type index after [add_entity] *)

Lemma append_assoc a b c : (a +:+ b) +:+ c = a +:+ (b +:+ c).
Proof.
  induction a as [|x a IH]; [done|].
  change (String x ((a +:+ b) +:+ c) = String x (a +:+ (b +:+ c))).
  by rewrite IH.
Qed.

Lemma type_blob_name_prefix component_name eid cid :
  type_blob_name component_name eid cid
  = type_prefix component_name +:+ (eid +:+ "-" +:+ cid).
Proof.
  unfold type_blob_name, type_prefix. by rewrite !append_assoc.
Qed.

Lemma listed_type_blob_name component_name eid cid :
  Py.occurs "/" eid = false → Py.occurs "/" cid = false →
  listed (type_prefix component_name) BLOBNAME_DELIMITER
         (type_blob_name component_name eid cid) = true.
Proof.
  intros He Hc. unfold listed, BLOBNAME_DELIMITER.
  rewrite type_blob_name_prefix, strip_prefix_app, !occurs_app.
  by rewrite He, Hc.
Qed.

Lemma append_sep_head sep a a' x x' :
  a +:+ String sep x = a' +:+ String sep x' →
  Py.occurs sep a = false → Py.occurs sep x = false → Py.occurs sep x' = false →
  a = a'.
Proof.
  revert a'. induction a as [|c a IH]; intros [|c' a'] Heq Ha Hx Hx'; simpl in *.
  - done.
  - injection Heq as <- ->. rewrite occurs_app in Hx. simpl in Hx.
    rewrite bool_decide_eq_true_2 in Hx by done.
    by rewrite orb_true_r in Hx.
  - injection Heq as -> _. apply orb_false_elim in Ha as [Hc _].
    by apply bool_decide_eq_false in Hc.
  - injection Heq as -> Heq. apply orb_false_elim in Ha as [_ Ha].
    by rewrite (IH a' Heq Ha Hx Hx').
Qed.

Lemma append_inj_l p a b : p +:+ a = p +:+ b → a = b.
Proof.
  induction p as [|x p IH]; [done|].
  change (String x (p +:+ a) = String x (p +:+ b) → a = b).
  intros [= Heq]. by apply IH.
Qed.

Lemma listed_type_only component_name component_name' eid cid :
  plain_name component_name' = true →
  Py.occurs "/" eid = false → Py.occurs "/" cid = false →
  listed (type_prefix component_name) BLOBNAME_DELIMITER
         (type_blob_name component_name' eid cid) = true →
  component_name = component_name'.
Proof.
  intros Hplain He Hc. unfold listed, BLOBNAME_DELIMITER.
  destruct (Py.strip_prefix _ _) as [rest|] eqn:Hstrip; [|done].
  intros Hrest%negb_true_iff.
  apply strip_prefix_Some in Hstrip.
  rewrite type_blob_name_prefix in Hstrip. unfold type_prefix in Hstrip.
  rewrite !append_assoc in Hstrip.
  do 2 apply append_inj_l in Hstrip.
  symmetry. apply negb_true_iff in Hplain.
  apply (append_sep_head "/" _ _ (eid +:+ "-" +:+ cid) rest); [exact Hstrip|done| |done].
  rewrite !occurs_app. by rewrite He, Hc.
Qed.

Lemma forward_name_not_listed component_name eid component_name' cid :
  listed (type_prefix component_name) BLOBNAME_DELIMITER
         (forward_blob_name eid component_name' cid) = false.
Proof. done. Qed.

Lemma data_name_not_listed component_name cid varname :
  listed (type_prefix component_name) BLOBNAME_DELIMITER
         (data_blob_name cid varname) = false.
Proof. done. Qed.

Lemma added_from_elem_r {Value} (components components' : list (Component Value)) c' :
  Forall2 added_from components components' → c' ∈ components' →
  ∃ c, c ∈ components ∧ added_from c c'.
Proof.
  induction 1 as [|c0 c0' l l' Hc _ IH]; [by intros ?%elem_of_nil|].
  intros [->|Hin]%elem_of_cons.
  - exists c0. split; [by left|done].
  - destruct (IH Hin) as (c & Hc' & Hadd). exists c. split; [by right|done].
Qed.

Lemma added_from_elem_l {Value} (components components' : list (Component Value)) c :
  Forall2 added_from components components' → c ∈ components →
  ∃ c', c' ∈ components' ∧ added_from c c'.
Proof.
  induction 1 as [|c0 c0' l l' Hc _ IH]; [by intros ?%elem_of_nil|].
  intros [->|Hin]%elem_of_cons.
  - exists c0'. split; [by left|done].
  - destruct (IH Hin) as (c' & Hc' & Hadd). exists c'. split; [by right|done].
Qed.

Lemma forallb_intro {A} (f : A → bool) l :
  (∀ x, x ∈ l → f x = true) → forallb f l = true.
Proof.
  intros H. apply forallb_forall. intros x Hx. apply H. by apply list_elem_of_In.
Qed.

Section TypeIndexAfterAdd.
Context {Value : Type}.
Variable serialize : Value → string * string.
Variable get_variables_of : Component Value → list (string * Value).

Local Abbreviation writes_of := (field_writes serialize get_variables_of).
Local Abbreviation add_entity := (add_entity serialize get_variables_of).

Lemma listed_add_write (entity : Entity Value) (w : World) components' T name :
  Forall2 added_from (get_components entity) components' →
  name ∈ (concat ((λ c, index_writes (_random_eid (random w)).1 c ++ writes_of c)
                    <$> components')).*1 →
  listed (type_prefix (__name__ T)) BLOBNAME_DELIMITER name = true →
  ∃ component cid,
    component ∈ get_components entity ∧ is_identifier cid = true ∧
    name = type_blob_name (__name__ (class_of component)) (_random_eid (random w)).1 cid.
Proof.
  intros Hall Hname Hlisted.
  apply add_writes_names in Hname
    as (c' & cid & Hc' & Hcid & [->|[->|(varname & data & _ & ->)]]).
  - by rewrite forward_name_not_listed in Hlisted.
  - destruct (added_from_elem_r _ _ _ Hall Hc') as (c & Hc & g & ->).
    cbn [identified _uid class_of] in *. injection Hcid as <-.
    exists c, (_random_cid g).1. split_and!; [done| |done].
    apply random_cid_spec.
  - by rewrite data_name_not_listed in Hlisted.
Qed.

Lemma add_entity_type_index (entity : Entity Value) (w : World) (T : Class) :
  forallb plain_name (class_names entity) = true →
  entity_ids (bucket (add_entity entity w).1) T =
  entity_ids (bucket w) T ∪
  (if bool_decide (__name__ T ∈ class_names entity)
   then {[(_random_eid (random w)).1]} else ∅).
Proof.
  intros Hplain.
  destruct (add_entity_run serialize get_variables_of entity w)
    as (w' & components' & Hrun & Hall & Hb).
  rewrite Hrun. cbn [fst]. rewrite Hb.
  pose proof (proj2 (random_eid_spec (random w))) as He.
  set (eid := (_random_eid (random w)).1) in *.
  apply set_eq. intros x. rewrite elem_of_union. unfold entity_ids.
  rewrite !elem_of_eids_of_names. split.
  - intros (name & cid & [Hsome Hlisted]%elem_of_search_blobs & Hparse).
    apply store_all_is_Some in Hsome as [Hold|Hnew].
    + left. exists name, cid. split; [by apply elem_of_search_blobs|done].
    + right.
      destruct (listed_add_write entity w _ T name Hall Hnew Hlisted)
        as (c & cid' & Hc & Hcid' & ->).
      assert (Hcn : __name__ (class_of c) ∈ class_names entity).
      { unfold class_names. apply list_elem_of_fmap. by exists c. }
      apply listed_type_only in Hlisted;
        [|by apply (forallb_elem _ _ _ Hplain)|by apply identifier_no_slash..].
      rewrite parse_type_blob_name in Hparse
        by (by apply identifier_no_slash || by apply identifier_no_dash).
      injection Hparse as <- _.
      rewrite bool_decide_eq_true_2 by (by rewrite Hlisted).
      by apply elem_of_singleton.
  - intros [(name & cid & [Hsome Hlisted]%elem_of_search_blobs & Hparse)|Hx].
    + exists name, cid. split; [|done]. apply elem_of_search_blobs.
      split; [|done]. apply store_all_is_Some. by left.
    + case_bool_decide as Hmem; [|by apply not_elem_of_empty in Hx].
      apply elem_of_singleton in Hx as ->.
      unfold class_names in Hmem.
      apply list_elem_of_fmap in Hmem as (c & Hname & Hc).
      destruct (added_from_elem_l _ _ _ Hall Hc) as (c' & Hc' & g & ->).
      pose proof (proj2 (random_cid_spec g)) as Hcid.
      exists (type_blob_name (__name__ T) eid (_random_cid g).1), (_random_cid g).1.
      split.
      * apply elem_of_search_blobs. split.
        -- apply store_all_is_Some. right. apply add_writes_names.
           eexists _, _. split_and!; [exact Hc'|done|].
           right. left. cbn [identified class_of]. by rewrite Hname.
        -- by apply listed_type_blob_name; apply identifier_no_slash.
      * by apply parse_type_blob_name;
          (apply identifier_no_slash || apply identifier_no_dash).
Qed.

Lemma add_entity_index_parses (entity : Entity Value) (w : World)
    (system : SystemWrapper) :
  index_parses (bucket w) system = true →
  index_parses (bucket (add_entity entity w).1) system = true.
Proof.
  intros Hp.
  destruct (add_entity_run serialize get_variables_of entity w)
    as (w' & components' & Hrun & Hall & Hb).
  rewrite Hrun. cbn [fst]. rewrite Hb. unfold index_parses in *.
  apply forallb_intro. intros T HT. apply forallb_intro. intros name Hname.
  apply elem_of_search_blobs in Hname as [Hsome Hlisted].
  apply store_all_is_Some in Hsome as [Hold|Hnew].
  - apply (forallb_elem _ _ T) in Hp; [|done].
    apply (forallb_elem _ _ name) in Hp; [done|].
    by apply elem_of_search_blobs.
  - destruct (listed_add_write entity w _ T name Hall Hnew Hlisted)
      as (c & cid & _ & Hcid & ->).
    pose proof (proj2 (random_eid_spec (random w))) as He.
    unfold parses. by rewrite parse_type_blob_name
      by (by apply identifier_no_slash || by apply identifier_no_dash).
Qed.

(** X10: [add_entity] extends the type index by exactly the new entity:
    when the class names of its components hold no ['/'], the entity-id set
    of a type afterwards is the one before, plus the new identifier if the
    entity has a component of a class of that name. *)
Theorem add_entity_extends_type_index (entity : Entity Value) (w : World) :
  forallb plain_name (class_names entity) = true →
  ∃ w' entity',
    add_entity entity w = (w', inr (entity', (_random_eid (random w)).1)) ∧
    ∀ component_type,
      entity_ids (bucket w') component_type =
      entity_ids (bucket w) component_type ∪
      (if bool_decide (__name__ component_type ∈ class_names entity)
       then {[(_random_eid (random w)).1]} else ∅).
Proof.
  intros Hplain.
  destruct (add_entity_run serialize get_variables_of entity w)
    as (w' & components' & Hrun & _).
  eexists w', _. split; [exact Hrun|]. intros T.
  pose proof (add_entity_type_index entity w T Hplain) as Hids.
  by rewrite Hrun in Hids.
Qed.

(** X11: [add_entity] keeps the type index readable: if every blob listed
    for the types of a query has a name that [run] can unpack, the same
    holds in the store that [add_entity] leaves. *)
Theorem add_entity_keeps_index_readable (entity : Entity Value) (w : World)
    (system : SystemWrapper) :
  index_parses (bucket w) system = true →
  ∃ w' entity' eid,
    add_entity entity w = (w', inr (entity', eid)) ∧
    index_parses (bucket w') system = true.
Proof.
  intros Hp.
  destruct (add_entity_run serialize get_variables_of entity w)
    as (w' & components' & Hrun & _).
  eexists w', _, _. split; [exact Hrun|].
  pose proof (add_entity_index_parses entity w system Hp) as Hp'.
  by rewrite Hrun in Hp'.
Qed.

(** X12: an entity that [add_entity] has just saved is matched by [run]
    for every query whose required types (at least one) are all classes of
    its components and whose excluded types are not, provided the type
    index was readable and the new identifier is not already listed for an
    excluded type. *)
Theorem added_entity_is_matched (entity : Entity Value) (w : World)
    (system : SystemWrapper) :
  forallb plain_name (class_names entity) = true →
  include_components system ≠ [] →
  index_parses (bucket w) system = true →
  (∀ component, component ∈ (include_components system).*2 →
                __name__ component ∈ class_names entity) →
  (∀ component, component ∈ exclude_components system →
                (__name__ component ∉ class_names entity) ∧
                ((_random_eid (random w)).1 ∉ entity_ids (bucket w) component)) →
  ∃ w' entity' matched_entities,
    add_entity entity w = (w', inr (entity', (_random_eid (random w)).1)) ∧
    matched_entities_of (bucket w') system = Py.ok matched_entities ∧
    (_random_eid (random w)).1 ∈ dom matched_entities.
Proof.
  intros Hplain Hne Hp Hreq Hexc.
  destruct (add_entity_run serialize get_variables_of entity w)
    as (w' & components' & Hrun & _).
  pose proof (add_entity_index_parses entity w system Hp) as Hp'.
  pose proof (λ T, add_entity_type_index entity w T Hplain) as Hids.
  rewrite Hrun in Hp', Hids. cbn [fst] in Hp', Hids.
  destruct (matched_entities_complete (bucket w') system Hne Hp') as (m & Hm & Hall).
  eexists w', _, m. split_and!; [exact Hrun|done|].
  apply Hall.
  - intros T HT. rewrite Hids, bool_decide_eq_true_2 by (by apply Hreq).
    apply elem_of_union. right. by apply elem_of_singleton.
  - intros T HT. destruct (Hexc T HT) as [Hname Hold].
    rewrite Hids, bool_decide_eq_false_2 by done.
    intros [Hin|Hin]%elem_of_union; [done|by apply not_elem_of_empty in Hin].
Qed.

End TypeIndexAfterAdd.

(** ** Deleting *)

(** X13: [delete_entity] removes nothing: for every entity it raises and
    leaves the store as it was.  Without identifier, or with the empty
    string as identifier, the error is "Entity has not been saved yet";
    with any other identifier the call reaches the base class and the error
    is [NotImplementedError]. *)
Theorem delete_entity_changes_nothing {Value} (entity : Entity Value) (w : World) :
  delete_entity entity w =
  (w, inl match uid entity with
          | Some eid =>
              if decide (eid = "") then Py.Exception "Entity has not been saved yet"
              else Py.NotImplementedError
          | None => Py.Exception "Entity has not been saved yet"
          end).
Proof.
  unfold delete_entity, uid_truthy. destruct (uid entity) as [eid|]; [|done].
  case_decide as Heid.
  - by rewrite bool_decide_eq_true_2.
  - by rewrite bool_decide_eq_false_2.
Qed.

(** ** Fetching the fields of a component *)

Lemma data_blob_name_prefix cid varname :
  data_blob_name cid varname = data_prefix cid +:+ varname.
Proof. unfold data_blob_name, data_prefix. by rewrite !append_assoc. Qed.

Lemma varname_of_data_name cid rest :
  Py.occurs "/" rest = false → varname_of (data_prefix cid +:+ rest) = rest.
Proof.
  intros Hrest.
  replace (data_prefix cid +:+ rest)
    with ((DATA_FOLDER +:+ "/" +:+ cid) +:+ String "/" rest)
    by (unfold data_prefix; by rewrite !append_assoc).
  unfold varname_of.
  rewrite split_app, last_item_app by apply split_nonempty.
  by rewrite split_absent.
Qed.

Lemma listed_data_prefix cid name :
  listed (data_prefix cid) BLOBNAME_DELIMITER name = true ↔
  ∃ rest, name = data_prefix cid +:+ rest ∧ Py.occurs "/" rest = false.
Proof.
  unfold listed, BLOBNAME_DELIMITER. split.
  - destruct (Py.strip_prefix _ _) as [rest|] eqn:Hstrip; [|done].
    intros Hrest%negb_true_iff. exists rest. split; [|done].
    by apply strip_prefix_Some.
  - intros (rest & -> & Hrest). by rewrite strip_prefix_app, Hrest.
Qed.

Lemma fetch_fold_lookup (b : gmap string Blob) names (acc : gmap string string)
    varname name :
  (∀ n, n ∈ names → is_Some (b !! n)) →
  (∀ n, n ∈ names → varname_of n = varname → n = name) →
  (name ∈ names → varname_of name = varname) →
  foldl
    (λ component_data n,
       match b !! n with
       | Some blob => <[varname_of n := payload blob]> component_data
       | None => component_data
       end) acc names !! varname
  = if bool_decide (name ∈ names) then payload <$> b !! name else acc !! varname.
Proof.
  revert acc. induction names as [|n names IH]; intros acc Hsome Hsame Hname.
  - by rewrite bool_decide_eq_false_2 by apply not_elem_of_nil.
  - cbn [foldl].
    destruct (Hsome n) as [blob Hn]; [by left|]. rewrite Hn.
    rewrite IH; [|intros; apply Hsome; by right
                 |intros ? ? ?; apply Hsame; [by right|done]
                 |intros; apply Hname; by right].
    case_bool_decide as Hin.
    + by rewrite bool_decide_eq_true_2 by (by right).
    + destruct (decide (varname_of n = varname)) as [Hv|Hv].
      * assert (n = name) as -> by (apply Hsame; [by left|done]).
        rewrite bool_decide_eq_true_2 by (by left).
        by rewrite <- Hv, lookup_insert_eq, Hn.
      * rewrite lookup_insert_ne by done.
        rewrite bool_decide_eq_false_2; [done|].
        intros [->|?]%elem_of_cons; [|done]. apply Hv, Hname. by left.
Qed.

Lemma fetch_lookup (b : gmap string Blob) cid varname :
  fetch_component_data b cid !! varname =
  if Py.occurs "/" varname then None
  else payload <$> b !! data_blob_name cid varname.
Proof.
  unfold fetch_component_data.
  rewrite (fetch_fold_lookup b _ ∅ varname (data_blob_name cid varname)).
  - rewrite lookup_empty. case_bool_decide as Hin.
    + apply elem_of_search_blobs in Hin as [_ Hlisted].
      apply listed_data_prefix in Hlisted as (rest & Heq & Hrest).
      rewrite data_blob_name_prefix in Heq. apply append_inj_l in Heq as ->.
      by rewrite Hrest.
    + destruct (Py.occurs "/" varname) eqn:Hv; [done|].
      destruct (b !! data_blob_name cid varname) as [blob|] eqn:Hb; [|done].
      destruct Hin. apply elem_of_search_blobs. split; [by eexists|].
      apply listed_data_prefix. exists varname. by rewrite data_blob_name_prefix.
  - intros n Hn. by apply elem_of_search_blobs in Hn as [? _].
  - intros n [_ (rest & -> & Hrest)%listed_data_prefix]%elem_of_search_blobs Hv.
    rewrite varname_of_data_name in Hv by done. subst rest.
    by rewrite data_blob_name_prefix.
  - intros [_ (rest & Heq & Hrest)%listed_data_prefix]%elem_of_search_blobs.
    rewrite data_blob_name_prefix in Heq. apply append_inj_l in Heq as ->.
    rewrite data_blob_name_prefix. by apply varname_of_data_name.
Qed.

(** X14: the mapping that [_load_entity_from_cids] fetches for a component
    identifier holds, under every field name without ['/'], the payload of
    the blob [dat/{cid}/{field name}] if the bucket has it, and nothing
    else; a blob whose field name contains ['/'] is never fetched. *)
Theorem fetch_component_data_lookup (b : gmap string Blob) (cid varname : string) :
  fetch_component_data b cid !! varname =
  if Py.occurs "/" varname then None
  else payload <$> b !! data_blob_name cid varname.
Proof. apply fetch_lookup. Qed.

(** X15: a field written by [_create_data_blob] is fetched back with the
    serialized payload when its name holds no ['/'] (and not at all when it
    does); the other fields of that component are fetched as before. *)
Theorem create_data_blob_then_fetch {Value} (serialize : Value → string * string)
    (cid varname : string) (data : Value) (w : World) :
  let w' := (_create_data_blob serialize cid varname data w).1 in
  fetch_component_data (bucket w') cid !! varname =
    (if Py.occurs "/" varname then None else Some (serialize data).1) ∧
  ∀ varname', varname' ≠ varname →
    fetch_component_data (bucket w') cid !! varname' =
    fetch_component_data (bucket w) cid !! varname'.
Proof.
  unfold _create_data_blob. destruct (serialize data) as [final_data mime_type].
  cbn [upload fst bucket]. split.
  - rewrite fetch_lookup, lookup_insert_eq. by destruct (Py.occurs "/" varname).
  - intros varname' Hne. rewrite !fetch_lookup.
    destruct (Py.occurs "/" varname'); [done|].
    rewrite lookup_insert_ne; [done|].
    rewrite !data_blob_name_prefix. by intros ?%append_inj_l.
Qed.

(** ** Loading an entity *)

Lemma load_step_raises (w : World) (result : Entity string) name cid :
  load_step w result (name, cid) =
  inl match component_classes w !! name with
      | Some _ => Py.TypeError
      | None => Py.KeyError name
      end.
Proof. unfold load_step. by destruct (component_classes w !! name). Qed.

(** X16: [_load_entity_from_cids] returns an entity only for an empty
    mapping of components (the entity then carries the identifier and no
    component).  For every other mapping it raises: [KeyError] for a
    component name that the registry does not hold, and otherwise
    [TypeError], because it calls [_create_component_from_data] with one
    argument more than the method takes. *)
Theorem load_entity_from_cids_outcome (eid : string)
    (components : gmap string string) (w : World) :
  (components = ∅ →
   _load_entity_from_cids eid components w = Py.ok (MkEntity (Some eid) false [] [])) ∧
  (components ≠ ∅ →
   ∃ err, _load_entity_from_cids eid components w = inl err ∧
          (err = Py.TypeError ∨
           ∃ name, err = Py.KeyError name ∧ is_Some (components !! name) ∧
                   component_classes w !! name = None)) ∧
  (components ≠ ∅ →
   (∀ name, is_Some (components !! name) → is_Some (component_classes w !! name)) →
   _load_entity_from_cids eid components w = inl Py.TypeError).
Proof.
  unfold _load_entity_from_cids.
  assert (Hfirst : components ≠ ∅ →
            ∃ name cid rest, map_to_list components = (name, cid) :: rest ∧
                             components !! name = Some cid).
  { intros Hne. destruct (map_to_list components) as [|[name cid] rest] eqn:Hlist.
    - by apply map_to_list_empty_iff in Hlist.
    - exists name, cid, rest. split; [done|].
      apply elem_of_map_to_list. rewrite Hlist. by left. }
  split_and!.
  - intros ->. by rewrite map_to_list_empty.
  - intros (name & cid & rest & -> & Hl)%Hfirst.
    rewrite for_each_cons, load_step_raises.
    destruct (component_classes w !! name) eqn:Hreg.
    + exists Py.TypeError. split; [done|by left].
    + exists (Py.KeyError name). split; [done|]. right. exists name. by split_and!.
  - intros (name & cid & rest & -> & Hl)%Hfirst Hreg.
    rewrite for_each_cons, load_step_raises.
    destruct (Hreg name) as [cls ->]; [by eexists|]. done.
Qed.

(** ** Entities without components, and the agreement of the indexes *)

Section IndexAgreement.
Context {Value : Type}.
Variable serialize : Value → string * string.
Variable get_variables_of : Component Value → list (string * Value).

Local Abbreviation writes_of := (field_writes serialize get_variables_of).
Local Abbreviation add_entity := (add_entity serialize get_variables_of).
Local Abbreviation update_entity := (update_entity serialize get_variables_of).

(** X17: an entity without loaded components leaves no trace: [add_entity]
    gives it an identifier and returns it, but uploads nothing, so the
    bucket is unchanged and no query can find the entity; [update_entity]
    on it changes nothing either. *)
Theorem entity_without_components_stores_nothing (entity : Entity Value) (w : World) :
  get_components entity = [] →
  (∃ w', add_entity entity w =
           (w', inr (MkEntity (Some (_random_eid (random w)).1) true []
                              (_unloaded_components entity),
                     (_random_eid (random w)).1)) ∧
         bucket w' = bucket w ∧
         ∀ component_type,
           entity_ids (bucket w') component_type = entity_ids (bucket w) component_type) ∧
  update_entity entity w = (w, inr ()).
Proof.
  intros Hnone. split.
  - destruct (add_entity_run serialize get_variables_of entity w)
      as (w' & components' & Hrun & Hall & Hb).
    rewrite Hnone in Hall. apply Forall2_nil_inv_l in Hall as ->.
    exists w'. split; [exact Hrun|]. cbn in Hb. split; [done|].
    intros T. by rewrite Hb.
  - unfold EntityDB_GCS.update_entity. rewrite Hnone. by destruct w.
Qed.

(** X18: [add_entity] keeps the forward index and the type index in
    agreement: if they held the same triples before, they do afterwards,
    for an entity whose class names hold neither ['/'] nor ['-']. *)
Theorem add_entity_keeps_indexes_agreeing (entity : Entity Value) (w : World) :
  forallb identifier_name (class_names entity) = true →
  indexes_agree (bucket w) →
  ∃ w' entity' eid,
    add_entity entity w = (w', inr (entity', eid)) ∧
    indexes_agree (bucket w').
Proof.
  intros Hnames Hagree.
  destruct (add_entity_run serialize get_variables_of entity w)
    as (w' & components' & Hrun & Hall & Hb).
  eexists w', _, _. split; [exact Hrun|]. rewrite Hb.
  pose proof (proj2 (random_eid_spec (random w))) as He.
  set (new_eid := (_random_eid (random w)).1) in *.
  assert (Hclass : ∀ c', c' ∈ components' →
            Py.occurs "/" (__name__ (class_of c')) = false ∧
            Py.occurs "-" (__name__ (class_of c')) = false).
  { intros c' Hc'. destruct (added_from_elem_r _ _ _ Hall Hc') as (c & Hc & g & ->).
    cbn [identified class_of].
    assert (Hn : identifier_name (__name__ (class_of c)) = true).
    { apply (forallb_elem _ _ _ Hnames). unfold class_names.
      apply list_elem_of_fmap. by exists c. }
    unfold identifier_name in Hn. apply andb_prop in Hn as [H1 H2].
    by apply negb_true_iff in H1, H2. }
  intros eid name cid Heid Hname.
  unfold identifier_name in Hname. apply andb_prop in Hname as [Hn1 Hn2].
  apply negb_true_iff in Hn1, Hn2.
  rewrite !store_all_is_Some, !add_writes_names.
  assert (Hinj := λ name' cid',
            index_blob_names_injective_lemma name name' eid new_eid cid cid').
  split; (intros [Hold|(c' & cid' & Hc' & Hcid' & Hwrite)];
          [left; by apply (Hagree eid name cid); [|unfold identifier_name;
                                                   rewrite Hn1, Hn2|]|]).
  - right. destruct (Hclass c' Hc') as [Hc1 Hc2].
    destruct Hwrite as [Heq|[Heq|(varname & data & _ & Heq)]];
      [|discriminate Heq..].
    apply (Hinj (__name__ (class_of c')) cid') in Heq as (-> & -> & ->); [|done..].
    exists c', cid'. split_and!; [done..|]. right. by left.
  - right. destruct (Hclass c' Hc') as [Hc1 Hc2].
    destruct Hwrite as [Heq|[Heq|(varname & data & _ & Heq)]];
      [discriminate Heq| |discriminate Heq].
    apply (Hinj (__name__ (class_of c')) cid') in Heq as (-> & -> & ->); [|done..].
    exists c', cid'. split_and!; [done..|]. by left.
Qed.

End IndexAgreement.

(** ** The further properties on the sample data *)

Import SampleQueries.

(** On the sample, the entity with both components is matched by the query
    that requires both. *)
Lemma run_matches_every_qualifying_entity_sample :
  ∃ m, matched_entities_of (bucket populated) moving = Py.ok m ∧
       "3kryFMT07elszGNU" ∈ dom m.
Proof.
  destruct (run_matches_every_qualifying_entity (bucket populated) moving)
    as (m & Hm & Hall); [discriminate|vm_compute; reflexivity|].
  exists m. split; [exact Hm|]. apply Hall.
  - intros T HT. cbn in HT.
    apply elem_of_cons in HT as [->|HT]; [by_computation|].
    apply list_elem_of_singleton in HT as ->. by_computation.
  - intros T HT. apply elem_of_nil in HT. destruct HT.
Defined.

(** On the sample, every entity matched by that query has a [Velocity]. *)
Lemma run_matches_within_last_required_sample :
  ∃ m, matched_entities_of (bucket populated) moving = Py.ok m ∧
       dom m ⊆ entity_ids (bucket populated) Velocity.
Proof.
  apply (run_matches_within_last_required (bucket populated) moving Velocity);
    [reflexivity|vm_compute; reflexivity].
Defined.

(** On the sample, the query that requires both components matches exactly
    the entities that have both. *)
Lemma run_exact_when_inhabited_sample :
  ∃ m, matched_entities_of (bucket populated) moving = Py.ok m ∧
       ∀ eid,
         eid ∈ dom m ↔
         (∀ component, component ∈ (include_components moving).*2 →
                       eid ∈ entity_ids (bucket populated) component) ∧
         (∀ component, component ∈ exclude_components moving →
                       eid ∉ entity_ids (bucket populated) component).
Proof.
  apply (run_exact_when_inhabited (bucket populated) moving
           ("p", Position) [("v", Velocity)]);
    [reflexivity|vm_compute; reflexivity|].
  split; [|exact I]. by_computation.
Defined.

(** On the sample, the component identifiers handed on for a matched entity
    come from its blobs in the type index. *)
Lemma run_hands_on_indexed_components_sample :
  ∃ m, matched_entities_of (bucket populated) moving = Py.ok m ∧
       ∀ eid cids, m !! eid = Some cids →
                   indexed (bucket populated) [Position; Velocity] eid cids.
Proof.
  destruct (run_hands_on_indexed_components (bucket populated) moving)
    as (m & Hm & Hall); [discriminate|vm_compute; reflexivity|].
  exists m. split; [exact Hm|]. intros eid cids Hl. by apply (Hall eid cids Hl).
Defined.

(** Two type-index names, or two forward-index names, of one entity and
    class are equal only for the same component identifier. *)
Lemma index_blob_names_injective_sample :
  (type_blob_name "Position" "3kryFMT07elszGNU" "l8fmtAHOV29gnuBI"
     = type_blob_name "Position" "3kryFMT07elszGNU" "tW3ahovCJQX4bipw" →
   "Position" = "Position" ∧ "3kryFMT07elszGNU" = "3kryFMT07elszGNU" ∧
   "l8fmtAHOV29gnuBI" = "tW3ahovCJQX4bipw") ∧
  (forward_blob_name "3kryFMT07elszGNU" "Position" "l8fmtAHOV29gnuBI"
     = forward_blob_name "3kryFMT07elszGNU" "Position" "tW3ahovCJQX4bipw" →
   "Position" = "Position" ∧ "3kryFMT07elszGNU" = "3kryFMT07elszGNU" ∧
   "l8fmtAHOV29gnuBI" = "tW3ahovCJQX4bipw").
Proof.
  apply (index_blob_names_injective "Position" "Position"
           "3kryFMT07elszGNU" "3kryFMT07elszGNU"
           "l8fmtAHOV29gnuBI" "tW3ahovCJQX4bipw"); reflexivity.
Defined.

(** On the sample, a second update of the entity with its [Position] loaded
    leaves the store of the first. *)
Lemma update_entity_idempotent_sample :
  ∃ w1, update_entity text attributes position_only populated = (w1, inr ()) ∧
        update_entity text attributes position_only w1 = (w1, inr ()).
Proof.
  apply update_entity_idempotent. repeat constructor. by eexists.
Defined.

(** On the sample, adding the entity with a [Velocity] extends the type
    index of [Velocity] by its identifier. *)
Lemma add_entity_extends_type_index_sample :
  ∃ w' entity',
    add_entity text attributes drifter with_mover
      = (w', inr (entity', (_random_eid (random with_mover)).1)) ∧
    entity_ids (bucket w') Velocity =
    entity_ids (bucket with_mover) Velocity ∪ {[(_random_eid (random with_mover)).1]}.
Proof.
  destruct (add_entity_extends_type_index text attributes drifter with_mover)
    as (w' & entity' & Hrun & Hids); [reflexivity|].
  exists w', entity'. split; [exact Hrun|].
  rewrite (Hids Velocity). by rewrite bool_decide_eq_true_2 by by_computation.
Defined.

(** On the sample, the type index is readable after the second entity is
    added. *)
Lemma add_entity_keeps_index_readable_sample :
  ∃ w' entity' eid,
    add_entity text attributes drifter with_mover = (w', inr (entity', eid)) ∧
    index_parses (bucket w') resting = true.
Proof.
  apply add_entity_keeps_index_readable. vm_compute; reflexivity.
Defined.

(** On the sample, the entity with a [Velocity] is matched, once added, by
    the query that requires [Velocity] and excludes [Health]. *)
Lemma added_entity_is_matched_sample :
  ∃ w' entity' m,
    add_entity text attributes drifter with_mover
      = (w', inr (entity', (_random_eid (random with_mover)).1)) ∧
    matched_entities_of (bucket w') unhurt = Py.ok m ∧
    (_random_eid (random with_mover)).1 ∈ dom m.
Proof.
  apply added_entity_is_matched;
    [reflexivity|discriminate|vm_compute; reflexivity| |].
  - intros T HT. cbn in HT. apply list_elem_of_singleton in HT as ->. by_computation.
  - intros T HT. cbn in HT. apply list_elem_of_singleton in HT as ->.
    split; by_computation.
Defined.

(** On the sample, the entity without components is given an identifier
    and leaves the bucket as it was. *)
Lemma entity_without_components_sample :
  (∃ w', add_entity text attributes bare with_mover =
           (w', inr (MkEntity (Some (_random_eid (random with_mover)).1) true []
                              (_unloaded_components bare),
                     (_random_eid (random with_mover)).1)) ∧
         bucket w' = bucket with_mover ∧
         ∀ component_type,
           entity_ids (bucket w') component_type
             = entity_ids (bucket with_mover) component_type) ∧
  update_entity text attributes bare with_mover = (with_mover, inr ()).
Proof.
  apply (entity_without_components_stores_nothing text attributes bare with_mover).
  reflexivity.
Defined.

(** On the sample, the two indexes agree after the first entity is added
    to the empty store. *)
Lemma add_entity_keeps_indexes_agreeing_sample :
  ∃ w' entity' eid,
    add_entity text attributes mover (start varied) = (w', inr (entity', eid)) ∧
    indexes_agree (bucket w').
Proof.
  apply (add_entity_keeps_indexes_agreeing text attributes mover (start varied));
    [reflexivity|].
  intros eid name cid _ _. cbn [start bucket]. by rewrite !lookup_empty.
Defined.
